(** * Embedding-drift detection for a Chroma-backed retrieval service

    A shallow embedding of the Python sources

      - [common/embedding.py]   (configuration fingerprint, model-name normalisation)
      - [common/ingest.py]      (drop-and-recreate rebuild of a collection)
      - [app/rag_service.py]    (state refresh, readiness check, query)
      - [app/main.py]           (query endpoint, distance-to-score conversion)
      - [init_service/init_embeddings.py] (one-shot initialisation)

    together with the properties of the drift-detection protocol. *)

From Stdlib Require Import NArith ZArith QArith List String Ascii Lia Lqa PrimFloat.
From stdpp Require Import base option list gmap.

Local Open Scope N_scope.

(** ** Python strings

    A Python [str] is a sequence of Unicode code points; a [bytes] value is a
    sequence of octets.  Both are lists of [N]. *)

Abbreviation str := (list N).
Abbreviation bytes := (list N).

(** A literal of the source, given by its ASCII characters. *)
Definition py (s : string) : str :=
  List.map N_of_ascii (list_ascii_of_string s).

Module Str.

(** [str.isspace] on one code point: the ASCII table of CPython
    ([\t \n \v \f \r], [\x1c]..[\x1f], space) and the Unicode white space
    characters. *)
Definition isspace (c : N) : bool :=
  ((0x09 <=? c) && (c <=? 0x0D)) || ((0x1C <=? c) && (c <=? 0x20))
  || (c =? 0x85) || (c =? 0xA0) || (c =? 0x1680)
  || ((0x2000 <=? c) && (c <=? 0x200A))
  || (c =? 0x2028) || (c =? 0x2029) || (c =? 0x202F) || (c =? 0x205F)
  || (c =? 0x3000).

Fixpoint lstrip (s : str) : str :=
  match s with
  | c :: s' => if isspace c then lstrip s' else s
  | [] => []
  end.

Definition rstrip (s : str) : str := rev (lstrip (rev s)).

(** [s.strip()] with no argument. *)
Definition strip (s : str) : str := rstrip (lstrip s).

(** Truth value of an [Optional[str]]: [None] and the empty string are
    false. *)
Definition truthy (o : option str) : bool :=
  match o with
  | None => false
  | Some [] => false
  | Some (_ :: _) => true
  end.

(** Code-point lexicographic order, the order of [sorted] on [str]. *)
Fixpoint ltb (a b : str) : bool :=
  match a, b with
  | [], [] => false
  | [], _ :: _ => true
  | _ :: _, [] => false
  | x :: a', y :: b' => (x <? y) || ((x =? y) && ltb a' b')
  end.

Definition hexdigit (n : N) : N :=
  if n <? 10 then 0x30 + n else 0x61 + (n - 10).

Definition is_hexdigit (c : N) : bool :=
  ((0x30 <=? c) && (c <=? 0x39)) || ((0x61 <=? c) && (c <=? 0x66)).

(** [s.encode("utf-8")]: fails ([None], a [UnicodeEncodeError]) on
    surrogates and on values that are no code point. *)
Definition utf8_char (c : N) : option bytes :=
  if c <? 0x80 then Some [c]
  else if c <? 0x800 then Some [0xC0 + c / 64; 0x80 + c mod 64]
  else if (0xD800 <=? c) && (c <=? 0xDFFF) then None
  else if c <? 0x10000 then
    Some [0xE0 + c / 4096; 0x80 + (c / 64) mod 64; 0x80 + c mod 64]
  else if c <? 0x110000 then
    Some [0xF0 + c / 262144; 0x80 + (c / 4096) mod 64;
          0x80 + (c / 64) mod 64; 0x80 + c mod 64]
  else None.

Fixpoint encode_utf8 (s : str) : option bytes :=
  match s with
  | [] => Some []
  | c :: s' =>
      match utf8_char c, encode_utf8 s' with
      | Some b, Some bs => Some (b ++ bs)
      | _, _ => None
      end
  end.

End Str.

(** ** [json.dumps(d, sort_keys=True)] on a dict of [str] to [str]

    Defaults of [json.dumps]: [ensure_ascii=True], separators [", "] and
    [": "]. *)
Module Json.

Definition hex4 (n : N) : str :=
  [Str.hexdigit ((n / 4096) mod 16); Str.hexdigit ((n / 256) mod 16);
   Str.hexdigit ((n / 16) mod 16); Str.hexdigit (n mod 16)].

(** [\uXXXX] *)
Definition uescape (n : N) : str := [0x5C; 0x75] ++ hex4 n.

(** One character under [ensure_ascii]: the short escapes, printable ASCII
    as it is, [\uXXXX] below 0x10000 and a surrogate pair above. *)
Definition escape_char (c : N) : str :=
  if c =? 0x22 then [0x5C; 0x22]
  else if c =? 0x5C then [0x5C; 0x5C]
  else if c =? 0x0A then [0x5C; 0x6E]
  else if c =? 0x0D then [0x5C; 0x72]
  else if c =? 0x09 then [0x5C; 0x74]
  else if c =? 0x08 then [0x5C; 0x62]
  else if c =? 0x0C then [0x5C; 0x66]
  else if (0x20 <=? c) && (c <=? 0x7E) then [c]
  else if c <? 0x10000 then uescape c
  else
    let n := c - 0x10000 in
    uescape (N.lor 0xD800 (N.land (N.shiftr n 10) 0x3FF))
    ++ uescape (N.lor 0xDC00 (N.land n 0x3FF)).

Definition encode_basestring_ascii (s : str) : str :=
  [0x22] ++ flat_map escape_char s ++ [0x22].

(** [sorted(d.items())] for distinct keys: insertion by key. *)
Fixpoint insert_item (kv : str * str) (l : list (str * str)) : list (str * str) :=
  match l with
  | [] => [kv]
  | kv' :: l' =>
      if Str.ltb (fst kv') (fst kv) then kv' :: insert_item kv l'
      else kv :: l
  end.

Definition sort_items (l : list (str * str)) : list (str * str) :=
  fold_right insert_item [] l.

Definition dump_item (kv : str * str) : str :=
  encode_basestring_ascii (fst kv) ++ [0x3A; 0x20]
  ++ encode_basestring_ascii (snd kv).

Fixpoint join (sep : str) (l : list str) : str :=
  match l with
  | [] => []
  | [x] => x
  | x :: l' => x ++ sep ++ join sep l'
  end.

(** The dict is given by its items in insertion order. *)
Definition dumps_sorted (items : list (str * str)) : str :=
  [0x7B] ++ join [0x2C; 0x20] (List.map dump_item (sort_items items)) ++ [0x7D].

End Json.

(** ** [hashlib.sha256] (FIPS 180-4) on 32-bit words held in [N] *)
Module Sha256.

Definition w32 (x : N) : N := x mod 2 ^ 32.
Definition add32 (a b : N) : N := w32 (a + b).
Definition not32 (x : N) : N := N.lxor x 0xFFFFFFFF.
Definition rotr (n x : N) : N :=
  N.lor (N.shiftr x n) (w32 (N.shiftl x (32 - n))).
Definition shr (n x : N) : N := N.shiftr x n.

Definition Ch (x y z : N) : N := N.lxor (N.land x y) (N.land (not32 x) z).
Definition Maj (x y z : N) : N :=
  N.lxor (N.lxor (N.land x y) (N.land x z)) (N.land y z).
Definition Sigma0 (x : N) : N := N.lxor (N.lxor (rotr 2 x) (rotr 13 x)) (rotr 22 x).
Definition Sigma1 (x : N) : N := N.lxor (N.lxor (rotr 6 x) (rotr 11 x)) (rotr 25 x).
Definition sigma0 (x : N) : N := N.lxor (N.lxor (rotr 7 x) (rotr 18 x)) (shr 3 x).
Definition sigma1 (x : N) : N := N.lxor (N.lxor (rotr 17 x) (rotr 19 x)) (shr 10 x).

(** The constants are defined the way the standard derives them: the first
    32 bits of the fractional parts of the cube roots (round constants) and
    of the square roots (initial hash value) of the first primes. *)
Definition is_prime (n : nat) : bool :=
  forallb (fun d => negb (Nat.eqb (Nat.modulo n d) 0)) (seq 2 (n - 2)).

(** The 64 primes from 2 to 311. *)
Definition primes : list N := List.map N.of_nat (filter is_prime (seq 2 310)).

(** Integer cube root, one bit at a time from bit 40 down. *)
Definition cube_root (n : N) : N :=
  fold_left
    (fun r b => let r' := r + 2 ^ N.of_nat b in if r' * r' * r' <=? n then r' else r)
    (rev (seq 0 41)) 0.

Definition K : list N :=
  List.map (fun p => w32 (cube_root (p * 2 ^ 96))) primes.

Record state := State {
  ha : N; hb : N; hc : N; hd : N; he : N; hf : N; hg : N; hh : N }.

Definition frac_sqrt (p : N) : N := w32 (N.sqrt (p * 2 ^ 64)).

Definition H0 : state :=
  State (frac_sqrt 2) (frac_sqrt 3) (frac_sqrt 5) (frac_sqrt 7)
        (frac_sqrt 11) (frac_sqrt 13) (frac_sqrt 17) (frac_sqrt 19).

(** Padding: the bit 1, zeros up to 56 mod 64 bytes, the bit length on
    64 bits, big-endian. *)
Definition be_bytes (n : nat) (x : N) : bytes :=
  List.map (fun i => (x / 256 ^ N.of_nat i) mod 256) (rev (seq 0 n)).

Definition pad (msg : bytes) : bytes :=
  let len := N.of_nat (length msg) in
  let zeros := N.to_nat ((55 + 64 - len mod 64) mod 64) in
  msg ++ [0x80] ++ repeat 0 zeros ++ be_bytes 8 ((8 * len) mod 2 ^ 64).

Fixpoint blocks (n : nat) (l : bytes) : list bytes :=
  match n with
  | O => []
  | S n' => firstn 64 l :: blocks n' (skipn 64 l)
  end.

(** The sixteen big-endian words of a block. *)
Fixpoint words (n : nat) (l : bytes) : list N :=
  match n with
  | O => []
  | S n' =>
      (nth 0 l 0 * 2 ^ 24 + nth 1 l 0 * 2 ^ 16 + nth 2 l 0 * 2 ^ 8 + nth 3 l 0)
      :: words n' (skipn 4 l)
  end.

(** Message schedule: [w] holds W_0 .. W_(t-1), one word is appended at
    a time. *)
Fixpoint extend (n : nat) (w : list N) : list N :=
  match n with
  | O => w
  | S n' =>
      let t := length w in
      let g i := nth (t - i) w 0 in
      extend n' (w ++ [add32 (add32 (add32 (sigma1 (g 2%nat)) (g 7%nat))
                                     (sigma0 (g 15%nat))) (g 16%nat)])
  end.

Definition schedule (block : bytes) : list N := extend 48 (words 16 block).

Definition round (s : state) (kw : N * N) : state :=
  let t1 := add32 (add32 (add32 (add32 (hh s) (Sigma1 (he s)))
                                (Ch (he s) (hf s) (hg s))) (fst kw)) (snd kw) in
  let t2 := add32 (Sigma0 (ha s)) (Maj (ha s) (hb s) (hc s)) in
  State (add32 t1 t2) (ha s) (hb s) (hc s) (add32 (hd s) t1) (he s) (hf s) (hg s).

Definition compress (s : state) (block : bytes) : state :=
  let s' := fold_left round (combine K (schedule block)) s in
  State (add32 (ha s) (ha s')) (add32 (hb s) (hb s')) (add32 (hc s) (hc s'))
        (add32 (hd s) (hd s')) (add32 (he s) (he s')) (add32 (hf s) (hf s'))
        (add32 (hg s) (hg s')) (add32 (hh s) (hh s')).

Definition digest_of (s : state) : bytes :=
  be_bytes 4 (ha s) ++ be_bytes 4 (hb s) ++ be_bytes 4 (hc s) ++ be_bytes 4 (hd s)
  ++ be_bytes 4 (he s) ++ be_bytes 4 (hf s) ++ be_bytes 4 (hg s) ++ be_bytes 4 (hh s).

(** [hashlib.sha256(msg).digest()] *)
Definition sha256 (msg : bytes) : bytes :=
  let p := pad msg in
  digest_of (fold_left compress (blocks (length p / 64) p) H0).

(** [.hexdigest()]: two lower-case hexadecimal digits per byte. *)
Definition hex (d : bytes) : str :=
  flat_map (fun b => [Str.hexdigit (b / 16); Str.hexdigit (b mod 16)]) d.

Definition hexdigest (msg : bytes) : str := hex (sha256 msg).

End Sha256.

(** ** Exceptions and results *)

Inductive exn : Type :=
  | NotFoundError                      (* chromadb.errors.NotFoundError *)
  | StoreError (code : N)              (* any other Exception raised by the client:
                                          transport, HTTP status, validation *)
  | ValueError
  | IndexError
  | UnicodeEncodeError
  | OSError
  | EmbeddingConfigMismatchError       (* common/exceptions.py *)
  | ChromaConnectionError (cause : exn)
  | HTTPException (status_code : N) (cause : exn).

Inductive result (A : Type) : Type :=
  | Ok (a : A)
  | Raise (e : exn).
Arguments Ok {A} a.
Arguments Raise {A} e.

(** ** common/embedding.py *)
Module Embedding.

Record EmbeddingConfig := {
  model_name : str;
  implementation : str;
  version : str }.

(** The constructor as the source calls it: [implementation] keeps its
    default. *)
Definition mkEmbeddingConfig (model_name version : str) : EmbeddingConfig :=
  {| model_name := model_name;
     implementation := py "sentence-transformers";
     version := version |}.

Definition payload (c : EmbeddingConfig) : str :=
  Json.dumps_sorted
    [(py "model_name", model_name c);
     (py "implementation", implementation c);
     (py "version", version c)].

(** The property [config_id]. *)
Definition config_id (c : EmbeddingConfig) : result str :=
  match Str.encode_utf8 (payload c) with
  | Some b => Ok (firstn 16 (Sha256.hexdigest b))
  | None => Raise UnicodeEncodeError
  end.

Definition normalise_model_name (raw_model_name : option str) : str :=
  if negb (Str.truthy raw_model_name) then py "default"
  else Str.strip (default [] raw_model_name).

Inductive embedding_function : Type :=
  | DefaultEmbeddingFunction
  | SentenceTransformerEmbeddingFunction (model_name : str).

Definition build_embedding_function (raw_model_name : option str) : embedding_function :=
  let model_name := normalise_model_name raw_model_name in
  if decide (model_name = py "default") then DefaultEmbeddingFunction
  else SentenceTransformerEmbeddingFunction model_name.

End Embedding.

(** ** common/config.py *)
Module Config.

Record Settings := {
  chroma_host : str;
  chroma_port : Z;
  chroma_collection : str;
  embedding_model_name : option str;
  embedding_config_version : str;
  log_level : str }.

End Config.

(** ** The vector store behind [chromadb.HttpClient]

    The store is outside the repository.  Its model keeps what the sources
    rely on: named collections with metadata and records, one HTTP call per
    client operation, and calls that may fail.  [faults] schedules the
    outcome of the coming calls ([Some e]: the call raises [e]), [search] is
    the store's ranking, [log] records the calls made. *)
Module Chroma.

(** Metadata values the store accepts. *)
Inductive mvalue : Type :=
  | MStr (s : str)
  | MInt (z : Z)
  | MFloat (f : float)
  | MBool (b : bool).

(** The client-side handle of a collection. *)
Record Collection := {
  name : str;
  metadata : option (gmap str mvalue);
  embedding_function : option Embedding.embedding_function }.

Record Stored := {
  stored_metadata : option (gmap str mvalue);
  stored_records : list (str * str * gmap str mvalue) }.

(** The dict a similarity query returns; [None] is an absent key. *)
Record QueryResult := {
  ids : option (list (list str));
  distances : option (list (list float));
  metadatas : option (list (list (option (gmap str mvalue))));
  documents : option (list (list (option str))) }.

Inductive call : Type :=
  | CConnect
  | CHeartbeat
  | CGetCollection (name : str)
  | CListCollections
  | CDeleteCollection (name : str)
  | CCreateCollection (name : str) (metadata : gmap str mvalue)
  | CAdd (name : str) (ids : list str)
  | CQuery (name : str) (question : str) (n_results : Z).

Record Store := {
  collections : gmap str Stored;
  faults : list (option exn);
  search : Stored -> str -> Z -> QueryResult;
  log : list call }.

Definition M (A : Type) : Type := Store -> result A * Store.

Definition ret {A} (a : A) : M A := fun w => (Ok a, w).

Definition bind {A B} (m : M A) (k : A -> M B) : M B :=
  fun w =>
    match m w with
    | (Ok a, w') => k a w'
    | (Raise e, w') => (Raise e, w')
    end.

Definition raise {A} (e : exn) : M A := fun w => (Raise e, w).

Definition with_collections (f : gmap str Stored -> gmap str Stored) (w : Store) : Store :=
  {| collections := f (collections w); faults := faults w;
     search := search w; log := log w |}.

(** One HTTP call: it is logged and takes the next scheduled outcome. *)
Definition request (c : call) : M unit :=
  fun w =>
    let w' := {| collections := collections w; faults := tail (faults w);
                 search := search w; log := log w ++ [c] |} in
    match faults w with
    | Some e :: _ => (Raise e, w')
    | _ => (Ok tt, w')
    end.

Definition handle (ef : option Embedding.embedding_function)
    (kv : str * Stored) : Collection :=
  {| name := fst kv; metadata := stored_metadata (snd kv);
     embedding_function := ef |}.

Definition HttpClient : M unit := request CConnect.

Definition heartbeat : M unit := request CHeartbeat.

Definition get_collection (name : str)
    (ef : option Embedding.embedding_function) : M Collection :=
  bind (request (CGetCollection name)) (fun _ w =>
    match collections w !! name with
    | Some s => (Ok (handle ef (name, s)), w)
    | None => (Raise NotFoundError, w)
    end).

Definition list_collections : M (list Collection) :=
  bind (request CListCollections) (fun _ w =>
    (Ok (List.map (handle None) (map_to_list (collections w))), w)).

Definition delete_collection (name : str) : M unit :=
  bind (request (CDeleteCollection name)) (fun _ w =>
    match collections w !! name with
    | Some _ => (Ok tt, with_collections (delete name) w)
    | None => (Raise NotFoundError, w)
    end).

Definition create_collection (name : str) (metadata : gmap str mvalue)
    (ef : option Embedding.embedding_function) : M Collection :=
  bind (request (CCreateCollection name metadata)) (fun _ w =>
    match collections w !! name with
    | Some _ => (Raise (StoreError 409), w)
    | None =>
        let s := {| stored_metadata := Some metadata; stored_records := [] |} in
        (Ok (handle ef (name, s)), with_collections (insert name s) w)
    end).

(** [collection.add(ids=..., documents=..., metadatas=...)] *)
Definition add (c : Collection)
    (batch : list (str * str * gmap str mvalue)) : M unit :=
  bind (request (CAdd (name c) (List.map (fun r => fst (fst r)) batch))) (fun _ w =>
    match collections w !! name c with
    | Some s =>
        let s' := {| stored_metadata := stored_metadata s;
                     stored_records := stored_records s ++ batch |} in
        (Ok tt, with_collections (insert (name c) s') w)
    | None => (Raise NotFoundError, w)
    end).

(** [collection.query(query_texts=[question], n_results=k, include=...)] *)
Definition query (c : Collection) (question : str) (n_results : Z) : M QueryResult :=
  bind (request (CQuery (name c) question n_results)) (fun _ w =>
    match collections w !! name c with
    | Some s => (Ok (search w s question n_results), w)
    | None => (Raise NotFoundError, w)
    end).

End Chroma.

Notation "x <- m ;; k" := (Chroma.bind m (fun x => k))
  (at level 100, m at next level, right associativity, only parsing).

(** The metadata key of the fingerprint stamp. *)
Definition embedding_config_id_key : str := py "embedding_config_id".
Definition embedding_model_name_key : str := py "embedding_model_name".

(** Python [==] between a metadata value and a [str]: values of another
    type are never equal to a string. *)
Definition eq_str (v : Chroma.mvalue) (s : str) : bool :=
  match v with
  | Chroma.MStr s' => bool_decide (s' = s)
  | _ => false
  end.

(** ** common/ingest.py *)
Module Ingest.

Record Document := {
  id : str;
  content : str;
  metadata : gmap str Chroma.mvalue }.

Fixpoint delete_first (name : str) (cs : list Chroma.Collection) : Chroma.M unit :=
  match cs with
  | [] => Chroma.ret tt
  | collection :: cs' =>
      if decide (Chroma.name collection = name)
      then Chroma.delete_collection name
      else delete_first name cs'
  end.

Definition _delete_collection_if_exists (name : str) : Chroma.M unit :=
  cs <- Chroma.list_collections ;;
  delete_first name cs.

(** [docs[start : start + batch_size]] for [start] in
    [range(0, len(docs), batch_size)], for a positive [batch_size]. *)
Fixpoint batches (fuel size : nat) (docs : list Document) : list (list Document) :=
  match fuel, docs with
  | O, _ => []
  | _, [] => []
  | S fuel', _ => firstn size docs :: batches fuel' size (skipn size docs)
  end.

Definition record_of (d : Document) : str * str * gmap str Chroma.mvalue :=
  (id d, content d, metadata d).

Fixpoint ingest (collection : Chroma.Collection)
    (bs : list (list Document)) : Chroma.M unit :=
  match bs with
  | [] => Chroma.ret tt
  | batch :: bs' =>
      _ <- Chroma.add collection (List.map record_of batch) ;;
      ingest collection bs'
  end.

Definition rebuild_collection (collection_name : str)
    (embedding_function : Embedding.embedding_function)
    (embedding_config_id embedding_model_name : str)
    (documents : list Document) (batch_size : Z) : Chroma.M Chroma.Collection :=
  let docs := documents in
  _ <- _delete_collection_if_exists collection_name ;;
  collection <- Chroma.create_collection collection_name
      (<[embedding_config_id_key := Chroma.MStr embedding_config_id]>
         (<[embedding_model_name_key := Chroma.MStr embedding_model_name]> ∅))
      (Some embedding_function) ;;
  _ <- (if (batch_size =? 0)%Z then Chroma.raise ValueError   (* range() with step 0 *)
        else if (batch_size <? 0)%Z then Chroma.ret tt          (* empty range *)
        else ingest collection
               (batches (length docs) (Z.to_nat batch_size) docs)) ;;
  Chroma.ret collection.

End Ingest.

(** ** app/rag_service.py *)
Module RagService.

Record RAGService := {
  _settings : Config.Settings;
  _embedding_config : Embedding.EmbeddingConfig;
  _embedding_function : Embedding.embedding_function;
  _collection : option Chroma.Collection;
  _collection_embedding_config_id : option Chroma.mvalue;
  _embedding_drift_detected : bool;
  _chroma_connected : bool }.

(** [__init__], the client being the store the methods run against. *)
Definition init (settings : Config.Settings) : RAGService :=
  {| _settings := settings;
     _embedding_config :=
       Embedding.mkEmbeddingConfig
         (Embedding.normalise_model_name (Config.embedding_model_name settings))
         (Config.embedding_config_version settings);
     _embedding_function :=
       Embedding.build_embedding_function (Config.embedding_model_name settings);
     _collection := None;
     _collection_embedding_config_id := None;
     _embedding_drift_detected := false;
     _chroma_connected := false |}.

(** Assignment to the four mutable attributes. *)
Definition assign (self : RAGService) (collection : option Chroma.Collection)
    (config_id : option Chroma.mvalue) (drift connected : bool) : RAGService :=
  {| _settings := _settings self;
     _embedding_config := _embedding_config self;
     _embedding_function := _embedding_function self;
     _collection := collection;
     _collection_embedding_config_id := config_id;
     _embedding_drift_detected := drift;
     _chroma_connected := connected |}.

(** The [except Exception] handler of [refresh_state]. *)
Definition disconnected (self : RAGService) (exc : exn) (w : Chroma.Store)
    : result unit * RAGService * Chroma.Store :=
  (Raise (ChromaConnectionError exc), assign self None None false false, w).

Definition refresh_state (self : RAGService) (w : Chroma.Store)
    : result unit * RAGService * Chroma.Store :=
  match Chroma.get_collection (Config.chroma_collection (_settings self))
          (Some (_embedding_function self)) w with
  | (Raise NotFoundError, w1) =>
      (Ok tt, assign self None None false true, w1)
  | (Raise exc, w1) => disconnected self exc w1
  | (Ok collection, w1) =>
      let metadata := default ∅ (Chroma.metadata collection) in
      match metadata !! embedding_config_id_key with
      | None =>
          (Ok tt, assign self (Some collection) None true true, w1)
      | Some stored_config_id =>
          match Embedding.config_id (_embedding_config self) with
          | Raise exc => disconnected self exc w1
          | Ok current =>
              let drift := negb (eq_str stored_config_id current) in
              (Ok tt, assign self (Some collection) (Some stored_config_id) drift true, w1)
          end
      end
  end.

Definition chroma_connected (self : RAGService) : bool := _chroma_connected self.

Definition embedding_drift_detected (self : RAGService) : bool :=
  _embedding_drift_detected self.

Definition is_ready (self : RAGService) : bool :=
  _chroma_connected self && negb (_embedding_drift_detected self).

Record EmbeddingStatus := {
  collection_name : str;
  current_embedding_model : str;
  current_embedding_config_id : str;
  collection_embedding_config_id : option Chroma.mvalue;
  drift_detected : bool }.

Definition get_embedding_status (self : RAGService) : result EmbeddingStatus * RAGService :=
  match Embedding.config_id (_embedding_config self) with
  | Raise exc => (Raise exc, self)
  | Ok current =>
      (Ok {| collection_name := Config.chroma_collection (_settings self);
             current_embedding_model :=
               Embedding.normalise_model_name
                 (Config.embedding_model_name (_settings self));
             current_embedding_config_id := current;
             collection_embedding_config_id := _collection_embedding_config_id self;
             drift_detected := _embedding_drift_detected self |}, self)
  end.

(** The client has [heartbeat], so that branch is the one taken. *)
Definition check_chroma_health (self : RAGService) (w : Chroma.Store)
    : bool * RAGService * Chroma.Store :=
  match Chroma.heartbeat w with
  | (Ok _, w1) => (true, self, w1)
  | (Raise _, w1) => (false, self, w1)
  end.

(** The dict [query] returns. *)
Record Answer := {
  question : str;
  ids : list str;
  distances : list float;
  metadatas : list (option (gmap str Chroma.mvalue));
  documents : list (option str) }.

(** [results.get(key, [[]])[0]] *)
Definition first_row {A} (field : option (list (list A))) : result (list A) :=
  match field with
  | None => Ok []
  | Some [] => Raise IndexError
  | Some (row :: _) => Ok row
  end.

Definition empty_answer (question : str) : Answer :=
  {| question := question; ids := []; distances := [];
     metadatas := []; documents := [] |}.

Definition unpack (question : str) (results : Chroma.QueryResult) : result Answer :=
  match first_row (Chroma.ids results) with
  | Raise e => Raise e
  | Ok ids =>
  match first_row (Chroma.distances results) with
  | Raise e => Raise e
  | Ok distances =>
  match first_row (Chroma.metadatas results) with
  | Raise e => Raise e
  | Ok metadatas =>
  match first_row (Chroma.documents results) with
  | Raise e => Raise e
  | Ok documents =>
      Ok {| question := question; ids := ids; distances := distances;
            metadatas := metadatas; documents := documents |}
  end end end end.

Definition query (self : RAGService) (question : str) (k : Z) (w : Chroma.Store)
    : result Answer * RAGService * Chroma.Store :=
  if negb (is_ready self) then (Raise EmbeddingConfigMismatchError, self, w)
  else
    match _collection self with
    | None => (Ok (empty_answer question), self, w)
    | Some collection =>
        match Chroma.query collection question k w with
        | (Raise e, w1) => (Raise e, self, w1)
        | (Ok results, w1) => (unpack question results, self, w1)
        end
    end.

End RagService.

(** ** app/main.py, the query endpoint *)
Module Main.

Record QueryRequest := { question : str; k : Z }.

Record RetrievedDocument := {
  id : str;
  score : float;
  metadata : gmap str Chroma.mvalue;
  content : str }.

Record QueryResponse := {
  response_question : str;
  results : list RetrievedDocument }.

(** The dependency of the endpoints: a new service object for each
    request. *)
Definition get_rag_service (settings : Config.Settings) : RagService.RAGService :=
  RagService.init settings.

Definition distance_to_score (d : float) : float := (1 / (1 + d))%float.

(** The comprehension over [zip(ids, distances, metadatas, documents)]. *)
Fixpoint retrieve (ids : list str) (distances : list float)
    (metadatas : list (option (gmap str Chroma.mvalue)))
    (documents : list (option str)) : list RetrievedDocument :=
  match ids, distances, metadatas, documents with
  | doc_id :: ids', dist :: distances', meta :: metadatas', doc :: documents' =>
      {| id := doc_id;
         score := distance_to_score dist;
         metadata := default ∅ meta;
         content := default [] doc |}
      :: retrieve ids' distances' metadatas' documents'
  | _, _, _, _ => []
  end.

Definition query_docs (request : QueryRequest) (rag : RagService.RAGService)
    (w : Chroma.Store) : result QueryResponse * RagService.RAGService * Chroma.Store :=
  match RagService.query rag (question request) (k request) w with
  | (Raise EmbeddingConfigMismatchError, rag', w') =>
      (Raise (HTTPException 503 EmbeddingConfigMismatchError), rag', w')
  | (Raise (ChromaConnectionError c), rag', w') =>
      (Raise (HTTPException 503 (ChromaConnectionError c)), rag', w')
  | (Raise e, rag', w') => (Raise e, rag', w')
  | (Ok result, rag', w') =>
      (Ok {| response_question := question request;
             results := retrieve (RagService.ids result) (RagService.distances result)
                          (RagService.metadatas result) (RagService.documents result) |},
       rag', w')
  end.

End Main.

(** ** init_service/init_embeddings.py *)
Module InitEmbeddings.

Section WithLower.

(** [str.lower], the Unicode case mapping of the interpreter. *)
Variable lower : str -> str.

Definition _bool_env (environ : gmap str str) (name : str) (default : bool) : bool :=
  match environ !! name with
  | None => default
  | Some raw =>
      let v := lower (Str.strip raw) in
      bool_decide (v ∈ [py "1"; py "true"; py "yes"; py "y"])
  end.

(** The tail of [main]: load the documents and rebuild. *)
Definition load_and_rebuild (settings : Config.Settings)
    (embedding_fn : Embedding.embedding_function) (config_id embedding_model : str)
    (loaded : result (list Ingest.Document)) (w : Chroma.Store) : Z * Chroma.Store :=
  match loaded with
  | Raise _ => (1%Z, w)
  | Ok documents =>
      match Ingest.rebuild_collection (Config.chroma_collection settings)
              embedding_fn config_id embedding_model documents 32 w with
      | (Ok _, w') => (0%Z, w')
      | (Raise _, w') => (1%Z, w')
      end
  end.

(** [main]: [environ] is the process environment, [loaded] the outcome of
    [load_documents_from_path]. *)
Definition main (settings : Config.Settings) (environ : gmap str str)
    (loaded : result (list Ingest.Document)) (w : Chroma.Store)
    : result Z * Chroma.Store :=
  let embedding_model :=
    Embedding.normalise_model_name (Config.embedding_model_name settings) in
  let embedding_config :=
    Embedding.mkEmbeddingConfig embedding_model
      (Config.embedding_config_version settings) in
  let embedding_fn :=
    Embedding.build_embedding_function (Config.embedding_model_name settings) in
  match Embedding.config_id embedding_config with
  | Raise e => (Raise e, w)
  | Ok config_id =>
  match Chroma.HttpClient w with
  | (Raise _, w0) => (Ok 1%Z, w0)
  | (Ok _, w0) =>
      let rebuild_on_mismatch :=
        _bool_env environ (py "REBUILD_ON_EMBEDDING_MISMATCH") true in
      match Chroma.get_collection (Config.chroma_collection settings) None w0 with
      | (Ok collection, w1) =>
          let metadata := default ∅ (Chroma.metadata collection) in
          let stored_config_id := metadata !! embedding_config_id_key in
          if from_option (fun v => eq_str v config_id) false stored_config_id
          then (Ok 0%Z, w1)
          else if negb rebuild_on_mismatch then (Ok 1%Z, w1)
          else
            let '(rc, w2) := load_and_rebuild settings embedding_fn config_id
                               embedding_model loaded w1 in
            (Ok rc, w2)
      | (Raise NotFoundError, w1) =>
          let '(rc, w2) := load_and_rebuild settings embedding_fn config_id
                             embedding_model loaded w1 in
          (Ok rc, w2)
      | (Raise _, w1) => (Ok 1%Z, w1)
      end
  end end.

End WithLower.

End InitEmbeddings.

(** ** Vocabulary of the statements *)

Definition ascii_only (s : str) : Prop := Forall (fun c => c < 0x80) s.

Definition quoted (s : str) : str := [0x22] ++ s ++ [0x22].

(** The key-sorted serialisation of the three fields, written out:
    an opening brace, ["implementation": ...], ["model_name": ...],
    ["version": ...] separated by a comma and a space, a closing brace. *)
Definition canonical_json (c : Embedding.EmbeddingConfig) : str :=
  py "{" ++ quoted (py "implementation") ++ py ": "
  ++ Json.encode_basestring_ascii (Embedding.implementation c) ++ py ", "
  ++ quoted (py "model_name") ++ py ": "
  ++ Json.encode_basestring_ascii (Embedding.model_name c) ++ py ", "
  ++ quoted (py "version") ++ py ": "
  ++ Json.encode_basestring_ascii (Embedding.version c) ++ py "}".

(** The first 16 hexadecimal characters of the SHA-256 of the canonical
    serialisation. *)
Definition fingerprint (c : Embedding.EmbeddingConfig) : str :=
  firstn 16 (Sha256.hexdigest (canonical_json c)).

(** The outcome scheduled for the next call to the store. *)
Definition pending (w : Chroma.Store) : option exn :=
  match Chroma.faults w with
  | Some e :: _ => Some e
  | _ => None
  end.

(** The store after a call [c] was made: the call is logged and its
    scheduled outcome consumed; the collections are as before. *)
Definition after (c : Chroma.call) (w : Chroma.Store) : Chroma.Store :=
  {| Chroma.collections := Chroma.collections w;
     Chroma.faults := tail (Chroma.faults w);
     Chroma.search := Chroma.search w;
     Chroma.log := Chroma.log w ++ [c] |}.

(** The three fields of the service state. *)
Definition state_is (self : RagService.RAGService) (connected : bool)
    (stored : option Chroma.mvalue) (drift : bool) : Prop :=
  RagService._chroma_connected self = connected
  /\ RagService._collection_embedding_config_id self = stored
  /\ RagService._embedding_drift_detected self = drift.

(** The collection [name] exists in the store and carries [meta]. *)
Definition stamped (name : str) (meta : gmap str Chroma.mvalue) (w : Chroma.Store) : Prop :=
  exists s, Chroma.collections w !! name = Some s /\ Chroma.stored_metadata s = Some meta.

(** The stamp [rebuild_collection] writes. *)
Definition stamp (fp label : str) : gmap str Chroma.mvalue :=
  <[embedding_config_id_key := Chroma.MStr fp]>
    (<[embedding_model_name_key := Chroma.MStr label]> ∅).

(** ** Sample inputs *)

(** The defaults of [Settings]. *)
Definition default_settings : Config.Settings :=
  {| Config.chroma_host := py "chromadb";
     Config.chroma_port := 8000%Z;
     Config.chroma_collection := py "utkrusht_docs";
     Config.embedding_model_name := None;
     Config.embedding_config_version := py "v1";
     Config.log_level := py "INFO" |}.

Definition no_hits (s : Chroma.Stored) (question : str) (k : Z) : Chroma.QueryResult :=
  {| Chroma.ids := Some [[]]; Chroma.distances := Some [[]];
     Chroma.metadatas := Some [[]]; Chroma.documents := Some [[]] |}.

(** A store with the given collections that serves every call. *)
Definition store_of (cs : gmap str Chroma.Stored) : Chroma.Store :=
  {| Chroma.collections := cs; Chroma.faults := [];
     Chroma.search := no_hits; Chroma.log := [] |}.

(** A store whose next call raises [e]. *)
Definition failing_store (e : exn) : Chroma.Store :=
  {| Chroma.collections := ∅; Chroma.faults := [Some e];
     Chroma.search := no_hits; Chroma.log := [] |}.

Definition stamped_with (fp : str) : Chroma.Stored :=
  {| Chroma.stored_metadata := Some (stamp fp (py "default"));
     Chroma.stored_records := [] |}.

Definition unstamped : Chroma.Stored :=
  {| Chroma.stored_metadata := None; Chroma.stored_records := [] |}.

Definition sample_docs : list Ingest.Document :=
  [ {| Ingest.id := py "a.md"; Ingest.content := py "alpha"; Ingest.metadata := ∅ |};
    {| Ingest.id := py "b.txt"; Ingest.content := py "beta"; Ingest.metadata := ∅ |} ].

(** ** The score formula *)




Definition sample_fingerprint : str := py "57c40a235b0eb29c".

Definition sample_store : Chroma.Store :=
  store_of {[ py "utkrusht_docs" := stamped_with sample_fingerprint ]}.

(** A service as [refresh_state] leaves it on [sample_store]. *)
Definition sample_ready_service : RagService.RAGService :=
  RagService.assign (RagService.init default_settings)
    (Some (Chroma.handle (Some Embedding.DefaultEmbeddingFunction)
             (py "utkrusht_docs", stamped_with sample_fingerprint)))
    (Some (Chroma.MStr sample_fingerprint)) false true.

Definition settings_v2 : Config.Settings :=
  {| Config.chroma_host := py "chromadb";
     Config.chroma_port := 8000%Z;
     Config.chroma_collection := py "utkrusht_docs";
     Config.embedding_model_name := None;
     Config.embedding_config_version := py "v2";
     Config.log_level := py "INFO" |}.

(** ** app/main.py, the other endpoints *)
Module Endpoints.

Record HealthStatus := {
  status : str;
  chroma_connected : bool;
  embedding_drift_detected : bool;
  details : RagService.EmbeddingStatus }.


(** [health]: [rag.chroma_connected and rag.check_chroma_health()] makes the
    liveness call only when the refresh left the service connected. *)
Definition health (rag : RagService.RAGService) (w : Chroma.Store)
    : result HealthStatus * RagService.RAGService * Chroma.Store :=
  let after_refresh :=
    match RagService.refresh_state rag w with
    | (Ok _, rag1, w1) => (Ok tt, rag1, w1)
    | (Raise (ChromaConnectionError _), rag1, w1) => (Ok tt, rag1, w1)
    | (Raise e, rag1, w1) => (Raise e, rag1, w1)
    end in
  match after_refresh with
  | (Raise e, rag1, w1) => (Raise e, rag1, w1)
  | (Ok _, rag1, w1) =>
      let '(chroma_ok, rag2, w2) :=
        if RagService.chroma_connected rag1
        then RagService.check_chroma_health rag1 w1
        else (false, rag1, w1) in
      match RagService.get_embedding_status rag2 with
      | (Raise e, rag3) => (Raise e, rag3, w2)
      | (Ok details, rag3) =>
          let status_str :=
            if chroma_ok && negb (RagService.embedding_drift_detected rag3)
            then py "ok" else py "degraded" in
          (Ok {| status := status_str;
                 chroma_connected := chroma_ok;
                 embedding_drift_detected := RagService.embedding_drift_detected rag3;
                 details := details |}, rag3, w2)
      end
  end.

(** [chroma_health] *)
Definition chroma_health (rag : RagService.RAGService) (w : Chroma.Store)
    : bool * RagService.RAGService * Chroma.Store :=
  RagService.check_chroma_health rag w.

End Endpoints.

(** ** common/ingest.py, the loader

    The directory tree is outside the program: [rglob] is given by the
    entries it yields, in its order, each with what the loop asks of the
    path. *)
Module Loader.

Inductive read_outcome : Type :=
  | Text (text : str)          (* the decoded content *)
  | Undecodable                (* UnicodeDecodeError *)
  | Failed (e : exn).          (* any other exception of read_text *)

Record Entry := {
  path : str;                  (* str(path) *)
  relative : str;              (* str(path.relative_to(root_path)) *)
  name : str;                  (* path.name *)
  suffix : str;                (* path.suffix *)
  is_file : bool;
  read_text : read_outcome }.

Inductive Root : Type :=
  | Missing                    (* root_path.exists() is false *)
  | Tree (entries : list Entry).

Section WithLower.

(** [str.lower], the Unicode case mapping of the interpreter. *)
Variable lower : str -> str.

Definition recognised (e : Entry) : bool :=
  bool_decide (lower (suffix e) ∈ [py ".md"; py ".txt"]).

Definition document_of (e : Entry) (text : str) : Ingest.Document :=
  {| Ingest.id := relative e;
     Ingest.content := text;
     Ingest.metadata :=
       <[py "source_path" := Chroma.MStr (path e)]>
         (<[py "file_name" := Chroma.MStr (name e)]> ∅) |}.

(** The loop over [rglob], [documents] being the list built so far. *)
Fixpoint scan (entries : list Entry) (documents : list Ingest.Document)
    : result (list Ingest.Document) :=
  match entries with
  | [] => Ok documents
  | e :: entries' =>
      if negb (is_file e) then scan entries' documents
      else if negb (recognised e) then scan entries' documents
      else
        match read_text e with
        | Undecodable => scan entries' documents
        | Failed exc => Raise exc
        | Text text =>
            if negb (Str.truthy (Some (Str.strip text)))
            then scan entries' documents
            else scan entries' (documents ++ [document_of e text])
        end
  end.

Definition load_documents_from_path (root : Root) : result (list Ingest.Document) :=
  match root with
  | Missing => Ok []
  | Tree entries => scan entries []
  end.

(** The entries that become documents. *)
Definition kept (e : Entry) : option Ingest.Document :=
  if is_file e && recognised e then
    match read_text e with
    | Text text =>
        if Str.truthy (Some (Str.strip text)) then Some (document_of e text) else None
    | _ => None
    end
  else None.

(** A read of a recognised file fails with something else than a decoding
    error. *)
Definition read_fails (e : Entry) : Prop :=
  is_file e = true /\ recognised e = true /\ exists exc, read_text e = Failed exc.

End WithLower.

End Loader.

(** ** More vocabulary *)

(** All white space. *)
Definition blank (s : str) : Prop := Forall (fun c => Str.isspace c = true) s.

(** Neither the first nor the last character is white space. *)
Definition trimmed (s : str) : Prop :=
  (forall c s', s = c :: s' -> Str.isspace c = false)
  /\ (forall c s', s = s' ++ [c] -> Str.isspace c = false).

(** A Unicode scalar value: a code point that is no surrogate. *)
Definition scalar (c : N) : Prop := c < 0xD800 \/ (0xDFFF < c /\ c < 0x110000).

Definition scalars (s : str) : Prop := Forall scalar s.

Definition scalar_fields (c : Embedding.EmbeddingConfig) : Prop :=
  scalars (Embedding.model_name c) /\ scalars (Embedding.implementation c)
  /\ scalars (Embedding.version c).

(** The collections other than [name] are the same in [w] and [w']. *)
Definition same_elsewhere (name : str) (w w' : Chroma.Store) : Prop :=
  forall n, n <> name -> Chroma.collections w' !! n = Chroma.collections w !! n.

(** The calls made between [w] and [w']. *)
Definition calls_between (w w' : Chroma.Store) (cs : list Chroma.call) : Prop :=
  Chroma.log w' = Chroma.log w ++ cs.

(** The identifiers one [add] call carries. *)
Definition add_call (name : str) (batch : list Ingest.Document) : Chroma.call :=
  Chroma.CAdd name (List.map Ingest.id batch).

(** The collection [rebuild_collection] leaves for the documents [docs]. *)
Definition rebuilt (fp label : str) (docs : list Ingest.Document) : Chroma.Stored :=
  {| Chroma.stored_metadata := Some (stamp fp label);
     Chroma.stored_records := List.map Ingest.record_of docs |}.



(** The collection carries, under [embedding_config_id], a value equal to
    the string [fp]. *)
Definition carries (fp : str) (s : Chroma.Stored) : Prop :=
  exists v, default ∅ (Chroma.stored_metadata s) !! embedding_config_id_key = Some v
            /\ eq_str v fp = true.

(** ** Reading an escaped character back

    The inverse of [Json.escape_char], used to show that the serialisation
    loses nothing. *)

Definition unhexdigit (c : N) : N :=
  if (0x30 <=? c) && (c <=? 0x39) then c - 0x30 else c - 0x61 + 10.

Definition unhex4 (a b c d : N) : N :=
  4096 * unhexdigit a + 256 * unhexdigit b + 16 * unhexdigit c + unhexdigit d.

Definition unescape_short (x : N) : N :=
  if x =? 0x6E then 0x0A
  else if x =? 0x72 then 0x0D
  else if x =? 0x74 then 0x09
  else if x =? 0x62 then 0x08
  else if x =? 0x66 then 0x0C
  else x.

(** The first character of an escaped text, and the rest of the text. *)
Definition unescape_one (l : str) : option (N * str) :=
  match l with
  | [] => None
  | c :: rest =>
      if negb (c =? 0x5C) then Some (c, rest)
      else
        match rest with
        | [] => None
        | x :: rest1 =>
            if negb (x =? 0x75) then Some (unescape_short x, rest1)
            else
              match rest1 with
              | a :: b :: c1 :: d :: rest2 =>
                  let hi := unhex4 a b c1 d in
                  if (0xD800 <=? hi) && (hi <=? 0xDBFF) then
                    match rest2 with
                    | e1 :: e2 :: a' :: b' :: c' :: d' :: rest3 =>
                        if (e1 =? 0x5C) && (e2 =? 0x75) then
                          Some (0x10000 + (hi - 0xD800) * 1024
                                + (unhex4 a' b' c' d' - 0xDC00), rest3)
                        else None
                    | _ => None
                    end
                  else Some (hi, rest2)
              | _ => None
              end
        end
  end.

(** * Properties *)

Example sha256_constants :
  length Sha256.K = 64%nat
  /\ nth 0 Sha256.K 0 = 0x428A2F98 /\ nth 63 Sha256.K 0 = 0xC67178F2
  /\ Sha256.ha Sha256.H0 = 0x6A09E667 /\ Sha256.hh Sha256.H0 = 0x5BE0CD19.
Proof. vm_compute. repeat split; reflexivity. Qed.

Example sha256_abc :
  Sha256.hexdigest (py "abc")
  = py "ba7816bf8f01cfea414140de5dae2223b00361a396177a9cb410ff61f20015ad".
Proof. vm_compute. reflexivity. Qed.

Example sha256_empty :
  Sha256.hexdigest []
  = py "e3b0c44298fc1c149afbf4c8996fb92427ae41e4649b934ca495991b7852b855".
Proof. vm_compute. reflexivity. Qed.

Example sha256_two_blocks :
  Sha256.hexdigest (py "abcdbcdecdefdefgefghfghighijhijkijkljklmklmnlmnomnopnopq")
  = py "248d6a61d20638b8e5c026930c3e6039a33ce45964ff2167f6ecedd419db06c1".
Proof. vm_compute. reflexivity. Qed.

(** ** The fingerprint *)

Lemma hexdigit_is_hexdigit n : n < 16 -> Str.is_hexdigit (Str.hexdigit n) = true.
Proof.
  intros Hn. unfold Str.is_hexdigit, Str.hexdigit.
  destruct (N.ltb_spec n 10).
  - replace (0x30 <=? 0x30 + n) with true by (symmetry; apply N.leb_le; lia).
    replace (0x30 + n <=? 0x39) with true by (symmetry; apply N.leb_le; lia).
    reflexivity.
  - replace (0x61 <=? 0x61 + (n - 10)) with true by (symmetry; apply N.leb_le; lia).
    replace (0x61 + (n - 10) <=? 0x66) with true by (symmetry; apply N.leb_le; lia).
    apply orb_true_r.
Qed.

Lemma is_hexdigit_ascii c : Str.is_hexdigit c = true -> c < 0x80.
Proof.
  unfold Str.is_hexdigit. intros H.
  apply orb_true_iff in H as [H | H]; apply andb_true_iff in H as [_ H];
    apply N.leb_le in H; lia.
Qed.

Lemma hexdigit_mod16_ascii n : Str.hexdigit (n mod 16) < 0x80.
Proof.
  apply is_hexdigit_ascii, hexdigit_is_hexdigit.
  apply N.mod_upper_bound. discriminate.
Qed.

Lemma uescape_ascii n : ascii_only (Json.uescape n).
Proof.
  unfold Json.uescape, Json.hex4, ascii_only. cbn [app].
  repeat constructor; try apply hexdigit_mod16_ascii; reflexivity.
Qed.

Lemma escape_char_ascii c : ascii_only (Json.escape_char c).
Proof.
  unfold Json.escape_char.
  repeat match goal with
         | |- ascii_only (if ?b then _ else _) => destruct b eqn:?
         end;
    try (repeat constructor; reflexivity);
    try apply uescape_ascii.
  - apply andb_true_iff in Heqb6 as [_ H]. apply N.leb_le in H.
    constructor; [| constructor]. lia.
  - apply Forall_app. split; apply uescape_ascii.
Qed.

Lemma encode_basestring_ascii_ascii s : ascii_only (Json.encode_basestring_ascii s).
Proof.
  unfold Json.encode_basestring_ascii, ascii_only.
  apply Forall_app. split; [repeat constructor; reflexivity |].
  apply Forall_app. split; [| repeat constructor; reflexivity].
  induction s as [| c s IH]; cbn [flat_map]; [constructor |].
  apply Forall_app. split; [apply escape_char_ascii | exact IH].
Qed.

Lemma encode_utf8_ascii s : ascii_only s -> Str.encode_utf8 s = Some s.
Proof.
  induction 1 as [| c s Hc _ IH]; [reflexivity |].
  cbn [Str.encode_utf8]. unfold Str.utf8_char.
  apply N.ltb_lt in Hc. rewrite Hc, IH. reflexivity.
Qed.

Lemma sort_items_config (m i v : str) :
  Json.sort_items [(py "model_name", m); (py "implementation", i); (py "version", v)]
  = [(py "implementation", i); (py "model_name", m); (py "version", v)].
Proof. reflexivity. Qed.

Lemma encode_key_implementation :
  Json.encode_basestring_ascii (py "implementation") = quoted (py "implementation").
Proof. reflexivity. Qed.

Lemma encode_key_model_name :
  Json.encode_basestring_ascii (py "model_name") = quoted (py "model_name").
Proof. reflexivity. Qed.

Lemma encode_key_version :
  Json.encode_basestring_ascii (py "version") = quoted (py "version").
Proof. reflexivity. Qed.

Lemma payload_canonical c : Embedding.payload c = canonical_json c.
Proof.
  unfold Embedding.payload, Json.dumps_sorted. rewrite sort_items_config.
  cbn [List.map Json.join]. unfold Json.dump_item. cbn [fst snd].
  rewrite encode_key_implementation, encode_key_model_name, encode_key_version.
  unfold canonical_json.
  change (py "{") with [0x7B]. change (py "}") with [0x7D].
  change (py ": ") with [0x3A; 0x20]. change (py ", ") with [0x2C; 0x20].
  rewrite <- !app_assoc. reflexivity.
Qed.

Lemma ascii_only_app a b : ascii_only a -> ascii_only b -> ascii_only (a ++ b).
Proof. intros Ha Hb. apply Forall_app. split; assumption. Qed.

Lemma ascii_only_literal s :
  forallb (fun c => c <? 0x80) s = true -> ascii_only s.
Proof.
  intros H. apply Forall_forall. intros c Hc.
  rewrite forallb_forall in H. apply N.ltb_lt, H, list_elem_of_In, Hc.
Qed.

Lemma canonical_json_ascii c : ascii_only (canonical_json c).
Proof.
  unfold canonical_json.
  repeat lazymatch goal with
         | |- ascii_only (_ ++ _) => apply ascii_only_app
         | |- ascii_only (Json.encode_basestring_ascii _) =>
             apply encode_basestring_ascii_ascii
         | |- ascii_only _ => apply ascii_only_literal; reflexivity
         end.
Qed.

Lemma be_bytes_length n x : length (Sha256.be_bytes n x) = n.
Proof. unfold Sha256.be_bytes. rewrite length_map, length_rev, length_seq. reflexivity. Qed.

Lemma be_bytes_range n x : Forall (fun b => b < 256) (Sha256.be_bytes n x).
Proof.
  unfold Sha256.be_bytes. apply Forall_map, Forall_forall. intros i _.
  cbn beta. apply N.mod_upper_bound. discriminate.
Qed.

Lemma sha256_length msg : length (Sha256.sha256 msg) = 32%nat.
Proof.
  unfold Sha256.sha256, Sha256.digest_of.
  rewrite !length_app, !be_bytes_length. reflexivity.
Qed.

Lemma sha256_range msg : Forall (fun b => b < 256) (Sha256.sha256 msg).
Proof.
  unfold Sha256.sha256, Sha256.digest_of.
  repeat (apply Forall_app; split); apply be_bytes_range.
Qed.

Lemma hex_length d : length (Sha256.hex d) = (2 * length d)%nat.
Proof.
  unfold Sha256.hex. induction d as [| b d IH]; [reflexivity |].
  cbn [flat_map length app]. rewrite IH. lia.
Qed.

Lemma hex_digits d :
  Forall (fun b => b < 256) d ->
  Forall (fun c => Str.is_hexdigit c = true) (Sha256.hex d).
Proof.
  unfold Sha256.hex. induction 1 as [| b d Hb _ IH]; [constructor |].
  cbn [flat_map app]. constructor; [| constructor; [| exact IH]].
  - apply hexdigit_is_hexdigit.
    apply N.Div0.div_lt_upper_bound. exact Hb.
  - apply hexdigit_is_hexdigit. apply N.mod_upper_bound. discriminate.
Qed.

Lemma config_id_ok c : Embedding.config_id c = Ok (fingerprint c).
Proof.
  unfold Embedding.config_id. rewrite payload_canonical.
  rewrite (encode_utf8_ascii _ (canonical_json_ascii c)). reflexivity.
Qed.

Lemma fingerprint_length c : length (fingerprint c) = 16%nat.
Proof.
  unfold fingerprint, Sha256.hexdigest.
  rewrite length_firstn, hex_length, sha256_length. reflexivity.
Qed.

Lemma fingerprint_hex c : Forall (fun ch => Str.is_hexdigit ch = true) (fingerprint c).
Proof.
  unfold fingerprint, Sha256.hexdigest.
  apply Forall_take, hex_digits, sha256_range.
Qed.

Example config_id_default_v1 :
  Embedding.config_id (Embedding.mkEmbeddingConfig (py "default") (py "v1"))
  = Ok (py "57c40a235b0eb29c").
Proof. vm_compute. reflexivity. Qed.

Example config_id_default_v2 :
  Embedding.config_id (Embedding.mkEmbeddingConfig (py "default") (py "v2"))
  = Ok (py "7f9fd90809a930bb").
Proof. vm_compute. reflexivity. Qed.

(** C5. For every configuration the fingerprint is computed without failure:
    the key-sorted JSON serialisation of the three fields is pure ASCII, so
    its UTF-8 encoding exists and is the serialisation itself, and
    [config_id] is the first 16 characters of the hexadecimal SHA-256 digest
    of these bytes.  The result has exactly 16 characters, all lower-case
    hexadecimal digits, and two configurations with the same three field
    values have the same fingerprint. *)
Theorem config_id_is_truncated_sha256 (c : Embedding.EmbeddingConfig) :
  Embedding.payload c = canonical_json c
  /\ Str.encode_utf8 (canonical_json c) = Some (canonical_json c)
  /\ Embedding.config_id c = Ok (firstn 16 (Sha256.hexdigest (canonical_json c)))
  /\ length (fingerprint c) = 16%nat
  /\ Forall (fun ch => Str.is_hexdigit ch = true) (fingerprint c)
  /\ (forall c',
        Embedding.model_name c' = Embedding.model_name c ->
        Embedding.implementation c' = Embedding.implementation c ->
        Embedding.version c' = Embedding.version c ->
        Embedding.config_id c' = Embedding.config_id c).
Proof.
  split; [apply payload_canonical |].
  split; [apply encode_utf8_ascii, canonical_json_ascii |].
  split; [apply config_id_ok |].
  split; [apply fingerprint_length |].
  split; [apply fingerprint_hex |].
  intros [m' i' v'] Hm Hi Hv. destruct c as [m i v]. cbn in Hm, Hi, Hv.
  subst. reflexivity.
Qed.

Lemma config_id_is_truncated_sha256_witness :
  Embedding.config_id
    {| Embedding.model_name := py "default";
       Embedding.implementation := py "sentence-transformers";
       Embedding.version := py "v1" |}
  = Embedding.config_id (Embedding.mkEmbeddingConfig (py "default") (py "v1")).
Proof.
  apply (config_id_is_truncated_sha256
           (Embedding.mkEmbeddingConfig (py "default") (py "v1")));
    reflexivity.
Defined.

(** ** Normalisation of the model name *)

Lemma normalise_None : Embedding.normalise_model_name None = py "default".
Proof. reflexivity. Qed.

Lemma normalise_empty : Embedding.normalise_model_name (Some (py "")) = py "default".
Proof. reflexivity. Qed.

Lemma normalise_Foo : Embedding.normalise_model_name (Some (py " Foo ")) = py "Foo".
Proof. reflexivity. Qed.

Lemma normalise_nonempty (s : str) :
  s <> [] -> Embedding.normalise_model_name (Some s) = Str.strip s.
Proof. destruct s; [congruence | reflexivity]. Qed.

(** A string of white space is not empty, so it passes the test and is
    stripped to the empty string; the embedding function is then built for
    the empty model name. *)
Lemma build_embedding_function_blank :
  Embedding.build_embedding_function (Some (py "   "))
  = Embedding.SentenceTransformerEmbeddingFunction (py "").
Proof. reflexivity. Qed.

Lemma normalise_not_idempotent :
  Embedding.normalise_model_name
    (Some (Embedding.normalise_model_name (Some (py "   "))))
  <> Embedding.normalise_model_name (Some (py "   ")).
Proof. discriminate. Qed.

(** C2. On the string of three spaces the normalisation returns the empty
    string, not ["default"]: the emptiness test runs before the strip.
    [None] and the empty string give ["default"], and [" Foo "] gives
    ["Foo"]. *)
Theorem normalise_model_name_blank :
  Embedding.normalise_model_name (Some (py "   ")) = py ""
  /\ Embedding.normalise_model_name (Some (py "   ")) <> py "default"
  /\ Embedding.normalise_model_name None = py "default"
  /\ Embedding.normalise_model_name (Some (py "")) = py "default"
  /\ Embedding.normalise_model_name (Some (py " Foo ")) = py "Foo".
Proof. repeat split; try reflexivity. discriminate. Qed.

(** ** Calls to the store *)

Lemma request_served c w :
  pending w = None -> Chroma.request c w = (Ok tt, after c w).
Proof.
  unfold pending, Chroma.request, after. intros H.
  destruct (Chroma.faults w) as [| [e |] fs]; [reflexivity | discriminate | reflexivity].
Qed.

Lemma request_fault c w e :
  pending w = Some e -> Chroma.request c w = (Raise e, after c w).
Proof.
  unfold pending, Chroma.request, after. intros H.
  destruct (Chroma.faults w) as [| [e' |] fs]; [discriminate | | discriminate].
  injection H as ->. reflexivity.
Qed.

Lemma request_store c w r w' :
  Chroma.request c w = (r, w') -> w' = after c w.
Proof.
  unfold Chroma.request, after. intros H.
  destruct (Chroma.faults w) as [| [e |] fs]; injection H as _ <-; reflexivity.
Qed.

Lemma get_collection_found name ef w s :
  pending w = None ->
  Chroma.collections w !! name = Some s ->
  Chroma.get_collection name ef w
  = (Ok (Chroma.handle ef (name, s)), after (Chroma.CGetCollection name) w).
Proof.
  intros Hp Hs. unfold Chroma.get_collection, Chroma.bind.
  rewrite (request_served _ _ Hp). cbn. rewrite Hs. reflexivity.
Qed.

Lemma get_collection_missing name ef w :
  pending w = None ->
  Chroma.collections w !! name = None ->
  Chroma.get_collection name ef w
  = (Raise NotFoundError, after (Chroma.CGetCollection name) w).
Proof.
  intros Hp Hs. unfold Chroma.get_collection, Chroma.bind.
  rewrite (request_served _ _ Hp). cbn. rewrite Hs. reflexivity.
Qed.

Lemma get_collection_fault name ef w e :
  pending w = Some e ->
  Chroma.get_collection name ef w
  = (Raise e, after (Chroma.CGetCollection name) w).
Proof.
  intros Hp. unfold Chroma.get_collection, Chroma.bind.
  rewrite (request_fault _ _ _ Hp). reflexivity.
Qed.

(** ** The readiness check *)

Lemma is_ready_false self :
  RagService.chroma_connected self = false
  \/ RagService.embedding_drift_detected self = true ->
  RagService.is_ready self = false.
Proof.
  unfold RagService.is_ready, RagService.chroma_connected,
    RagService.embedding_drift_detected.
  intros [-> | ->]; [reflexivity | apply andb_false_r].
Qed.

Lemma is_ready_true self :
  RagService.chroma_connected self = true ->
  RagService.embedding_drift_detected self = false ->
  RagService.is_ready self = true.
Proof.
  unfold RagService.is_ready, RagService.chroma_connected,
    RagService.embedding_drift_detected.
  intros -> ->. reflexivity.
Qed.

Lemma query_not_ready self question k w :
  RagService.is_ready self = false ->
  RagService.query self question k w = (Raise EmbeddingConfigMismatchError, self, w).
Proof. unfold RagService.query. intros ->. reflexivity. Qed.

Lemma query_no_collection self question k w :
  RagService.is_ready self = true ->
  RagService._collection self = None ->
  RagService.query self question k w
  = (Ok (RagService.empty_answer question), self, w).
Proof. unfold RagService.query. intros -> ->. reflexivity. Qed.

Lemma query_attached self question k w collection :
  RagService.is_ready self = true ->
  RagService._collection self = Some collection ->
  exists r,
    RagService.query self question k w
    = (r, self, after (Chroma.CQuery (Chroma.name collection) question k) w).
Proof.
  unfold RagService.query. intros -> ->. cbn [negb].
  unfold Chroma.query, Chroma.bind.
  destruct (Chroma.request _ w) as [[[] | e] w1] eqn:Hreq;
    apply request_store in Hreq as ->; cbn.
  - destruct (_ !! _); eauto.
  - eauto.
Qed.

(** C1. If the service is not connected or drift was detected, [query]
    raises [EmbeddingConfigMismatchError] and leaves the store as it was: no
    call was made.  If it is connected and no drift was detected, [query]
    returns the empty result when no collection is attached, and otherwise
    makes exactly one call to the store, the similarity query for the
    question and [k]. *)
Theorem query_gated_by_readiness
    (self : RagService.RAGService) (question : str) (k : Z) (w : Chroma.Store) :
  (RagService.chroma_connected self = false
   \/ RagService.embedding_drift_detected self = true ->
   RagService.query self question k w
   = (Raise EmbeddingConfigMismatchError, self, w))
  /\ (RagService.chroma_connected self = true ->
      RagService.embedding_drift_detected self = false ->
      match RagService._collection self with
      | None =>
          RagService.query self question k w
          = (Ok (RagService.empty_answer question), self, w)
      | Some collection =>
          exists r w',
            RagService.query self question k w = (r, self, w')
            /\ Chroma.log w'
               = Chroma.log w ++ [Chroma.CQuery (Chroma.name collection) question k]
      end).
Proof.
  split.
  - intros H. apply query_not_ready, is_ready_false, H.
  - intros Hc Hd. pose proof (is_ready_true _ Hc Hd) as Hr.
    destruct (RagService._collection self) as [collection |] eqn:Hcoll.
    + destruct (query_attached self question k w collection Hr Hcoll) as [r Hq].
      exists r, (after (Chroma.CQuery (Chroma.name collection) question k) w).
      split; [exact Hq | reflexivity].
    + apply query_no_collection; assumption.
Qed.

(** C8. [query] returns the service object it was given, whatever the
    outcome; so do the other readers, [get_embedding_status] and
    [check_chroma_health]. *)
Theorem query_leaves_state_unchanged
    (self : RagService.RAGService) (question : str) (k : Z) (w : Chroma.Store) :
  snd (fst (RagService.query self question k w)) = self
  /\ snd (RagService.get_embedding_status self) = self
  /\ snd (fst (RagService.check_chroma_health self w)) = self.
Proof.
  split; [| split].
  - unfold RagService.query.
    destruct (negb (RagService.is_ready self)); [reflexivity |].
    destruct (RagService._collection self) as [collection |]; [| reflexivity].
    destruct (Chroma.query collection question k w) as [[results | e] w1];
      reflexivity.
  - unfold RagService.get_embedding_status.
    destruct (Embedding.config_id _); reflexivity.
  - unfold RagService.check_chroma_health.
    destruct (Chroma.heartbeat w) as [[[] | e] w1]; reflexivity.
Qed.

(** ** Refresh *)

Lemma refresh_state_found self w s :
  pending w = None ->
  Chroma.collections w !! Config.chroma_collection (RagService._settings self) = Some s ->
  let name := Config.chroma_collection (RagService._settings self) in
  let collection :=
    Chroma.handle (Some (RagService._embedding_function self)) (name, s) in
  RagService.refresh_state self w
  = (Ok tt,
     match default ∅ (Chroma.stored_metadata s) !! embedding_config_id_key with
     | None => RagService.assign self (Some collection) None true true
     | Some v =>
         RagService.assign self (Some collection) (Some v)
           (negb (eq_str v (fingerprint (RagService._embedding_config self)))) true
     end,
     after (Chroma.CGetCollection name) w).
Proof.
  intros Hp Hs name collection. unfold RagService.refresh_state.
  rewrite (get_collection_found _ _ _ _ Hp Hs). cbn [Chroma.handle Chroma.metadata fst snd].
  destruct (default ∅ (Chroma.stored_metadata s) !! embedding_config_id_key) as [v |];
    [| reflexivity].
  rewrite config_id_ok. reflexivity.
Qed.

Lemma eq_str_MStr s fp : eq_str (Chroma.MStr s) fp = true <-> s = fp.
Proof. unfold eq_str. apply bool_decide_eq_true. Qed.

Lemma eq_str_refl s : eq_str (Chroma.MStr s) s = true.
Proof. apply eq_str_MStr. reflexivity. Qed.

(** C3. When the call is served and the named collection exists, refresh
    succeeds and the service is connected.  Without the key
    [embedding_config_id] in the metadata the drift flag is set and no
    stored fingerprint is recorded.  With a value under the key, that value
    is recorded and the drift flag is the negation of its equality with the
    current fingerprint; for a string value the flag is set exactly when the
    two strings differ. *)
Theorem refresh_state_existing_collection
    (self : RagService.RAGService) (w : Chroma.Store) (s : Chroma.Stored) :
  pending w = None ->
  Chroma.collections w !! Config.chroma_collection (RagService._settings self) = Some s ->
  exists self' w',
    RagService.refresh_state self w = (Ok tt, self', w')
    /\ RagService._chroma_connected self' = true
    /\ match default ∅ (Chroma.stored_metadata s) !! embedding_config_id_key with
       | None =>
           RagService._embedding_drift_detected self' = true
           /\ RagService._collection_embedding_config_id self' = None
       | Some v =>
           RagService._collection_embedding_config_id self' = Some v
           /\ Embedding.config_id (RagService._embedding_config self)
              = Ok (fingerprint (RagService._embedding_config self))
           /\ RagService._embedding_drift_detected self'
              = negb (eq_str v (fingerprint (RagService._embedding_config self)))
           /\ (forall stored : str,
                 v = Chroma.MStr stored ->
                 (RagService._embedding_drift_detected self' = true
                  <-> stored <> fingerprint (RagService._embedding_config self)))
       end.
Proof.
  intros Hp Hs. eexists _, _. split; [apply (refresh_state_found _ _ _ Hp Hs) |].
  destruct (default ∅ (Chroma.stored_metadata s) !! embedding_config_id_key) as [v |].
  - split; [reflexivity |]. split; [reflexivity |].
    split; [apply config_id_ok |]. split; [reflexivity |].
    intros stored ->.
    cbn [RagService._embedding_drift_detected RagService.assign].
    rewrite negb_true_iff, <- not_true_iff_false, eq_str_MStr. reflexivity.
  - split; [reflexivity |]. split; reflexivity.
Qed.

(** C4. When the call to the store raises anything but [NotFoundError],
    refresh raises [ChromaConnectionError] carrying that exception, and the
    state is reset: not connected, no collection, no stored fingerprint, no
    drift.  Conversely refresh returns normally only if the call was served
    or raised [NotFoundError]. *)
Theorem refresh_state_store_failure
    (self : RagService.RAGService) (w : Chroma.Store) (e : exn) :
  pending w = Some e ->
  e <> NotFoundError ->
  exists self' w',
    RagService.refresh_state self w = (Raise (ChromaConnectionError e), self', w')
    /\ state_is self' false None false
    /\ RagService._collection self' = None.
Proof.
  intros Hp Hne.
  exists (RagService.assign self None None false false),
    (after (Chroma.CGetCollection
              (Config.chroma_collection (RagService._settings self))) w).
  split; [| split; [repeat split | reflexivity]].
  unfold RagService.refresh_state. rewrite (get_collection_fault _ _ _ _ Hp).
  destruct e; try reflexivity. congruence.
Qed.

Lemma refresh_state_ok_only_if_served self w self' w' :
  RagService.refresh_state self w = (Ok tt, self', w') ->
  pending w = None \/ pending w = Some NotFoundError.
Proof.
  intros H. destruct (pending w) as [e |] eqn:Hp; [| left; reflexivity].
  right. f_equal.
  unfold RagService.refresh_state in H. rewrite (get_collection_fault _ _ _ _ Hp) in H.
  destruct e; try reflexivity; discriminate.
Qed.

(** C6. When the call is served and the named collection does not exist,
    refresh returns normally with the service connected, no stored
    fingerprint and no drift; a query on the refreshed service, against any
    state of the store, returns the empty result. *)
Theorem refresh_state_missing_collection
    (self : RagService.RAGService) (w : Chroma.Store) :
  pending w = None ->
  Chroma.collections w !! Config.chroma_collection (RagService._settings self) = None ->
  exists self' w',
    RagService.refresh_state self w = (Ok tt, self', w')
    /\ state_is self' true None false
    /\ (forall question k w'',
          RagService.query self' question k w''
          = (Ok (RagService.empty_answer question), self', w'')).
Proof.
  intros Hp Hs.
  exists (RagService.assign self None None false true),
    (after (Chroma.CGetCollection
              (Config.chroma_collection (RagService._settings self))) w).
  split; [| split; [repeat split |]].
  - unfold RagService.refresh_state.
    rewrite (get_collection_missing _ _ _ Hp Hs). reflexivity.
  - intros question k w''. reflexivity.
Qed.

(** ** Rebuild *)

Lemma bind_ok {A B} (m : Chroma.M A) (k : A -> Chroma.M B) w b w' :
  Chroma.bind m k w = (Ok b, w') ->
  exists a w1, m w = (Ok a, w1) /\ k a w1 = (Ok b, w').
Proof.
  unfold Chroma.bind. destruct (m w) as [[a | e] w1]; [eauto | discriminate].
Qed.

Lemma create_collection_ok name meta ef w c w' :
  Chroma.create_collection name meta ef w = (Ok c, w') ->
  Chroma.name c = name /\ stamped name meta w'.
Proof.
  unfold Chroma.create_collection. intros H.
  apply bind_ok in H as ([] & w1 & _ & H).
  destruct (Chroma.collections w1 !! name); [discriminate |].
  injection H as <- <-. split; [reflexivity |].
  eexists. split; [apply lookup_insert_eq | reflexivity].
Qed.

Lemma add_keeps_stamp c batch w w' name meta :
  Chroma.add c batch w = (Ok tt, w') ->
  stamped name meta w -> stamped name meta w'.
Proof.
  unfold Chroma.add. intros H (s & Hs & Hm).
  apply bind_ok in H as ([] & w1 & Hreq & H).
  apply request_store in Hreq as ->. cbn in H.
  destruct (Chroma.collections w !! Chroma.name c) as [s0 |] eqn:Hc; [| discriminate].
  injection H as <-. unfold stamped. cbn.
  destruct (decide (Chroma.name c = name)) as [Heq | Hne].
  - rewrite Heq in Hc |- *. rewrite Hs in Hc. injection Hc as <-.
    rewrite lookup_insert_eq. eexists. split; [reflexivity | exact Hm].
  - rewrite lookup_insert_ne by exact Hne. eauto.
Qed.

Lemma ingest_keeps_stamp c bs : forall w w' name meta,
  Ingest.ingest c bs w = (Ok tt, w') ->
  stamped name meta w -> stamped name meta w'.
Proof.
  induction bs as [| batch bs IH]; intros w w' name meta H Hst.
  - injection H as <-. exact Hst.
  - cbn [Ingest.ingest] in H. apply bind_ok in H as ([] & w1 & Hadd & H).
    eapply IH; [exact H |]. eapply add_keeps_stamp; eassumption.
Qed.

Lemma rebuild_collection_stamps name ef fp label docs batch_size w c w' :
  Ingest.rebuild_collection name ef fp label docs batch_size w = (Ok c, w') ->
  stamped name (stamp fp label) w'.
Proof.
  unfold Ingest.rebuild_collection. intros H.
  apply bind_ok in H as ([] & w1 & _ & H).
  apply bind_ok in H as (c1 & w2 & Hcreate & H).
  apply bind_ok in H as ([] & w3 & Hing & H).
  injection H as _ <-.
  apply create_collection_ok in Hcreate as [_ Hst].
  destruct (batch_size =? 0)%Z; [discriminate |].
  destruct (batch_size <? 0)%Z.
  - injection Hing as <-. exact Hst.
  - eapply ingest_keeps_stamp; eassumption.
Qed.

(** C7. If [rebuild_collection name ... fp ...] returns, then a refresh of a
    service for the collection [name] whose configuration has fingerprint
    [fp], served by the store as the rebuild left it, returns normally and
    records the stored fingerprint [fp], no drift, connected. *)
Theorem rebuild_then_refresh
    (name : str) (ef : Embedding.embedding_function) (fp label : str)
    (docs : list Ingest.Document) (batch_size : Z)
    (w w' : Chroma.Store) (c : Chroma.Collection)
    (self : RagService.RAGService) :
  Ingest.rebuild_collection name ef fp label docs batch_size w = (Ok c, w') ->
  Config.chroma_collection (RagService._settings self) = name ->
  Embedding.config_id (RagService._embedding_config self) = Ok fp ->
  pending w' = None ->
  exists self' w'',
    RagService.refresh_state self w' = (Ok tt, self', w'')
    /\ state_is self' true (Some (Chroma.MStr fp)) false.
Proof.
  intros Hreb Hname Hfp Hp.
  apply rebuild_collection_stamps in Hreb as (s & Hs & Hm).
  rewrite <- Hname in Hs.
  eexists _, _. split; [apply (refresh_state_found _ _ _ Hp Hs) |].
  rewrite Hm. cbn [default from_option]. unfold id, stamp.
  rewrite lookup_insert_eq.
  rewrite config_id_ok in Hfp. injection Hfp as Hfp. rewrite Hfp.
  split; [reflexivity | split; [reflexivity |]].
  cbn [RagService._embedding_drift_detected RagService.assign].
  rewrite eq_str_refl. reflexivity.
Qed.

(** A store that serves every call lets the rebuild run to its end, for
    every batch size but 0 (where [range] raises). *)

Lemma pending_no_faults w : Chroma.faults w = [] -> pending w = None.
Proof. unfold pending. intros ->. reflexivity. Qed.

Lemma after_no_faults c w : Chroma.faults w = [] -> Chroma.faults (after c w) = [].
Proof. cbn. intros ->. reflexivity. Qed.

Lemma delete_first_ok name cs : forall w,
  Chroma.faults w = [] ->
  (forall c, In c cs -> Chroma.name c = name ->
             is_Some (Chroma.collections w !! name)) ->
  ((forall c, In c cs -> Chroma.name c <> name) ->
   Chroma.collections w !! name = None) ->
  exists w',
    Ingest.delete_first name cs w = (Ok tt, w')
    /\ Chroma.faults w' = []
    /\ Chroma.collections w' !! name = None.
Proof.
  induction cs as [| c cs IH]; intros w Hf Hin Hout.
  - exists w. split; [reflexivity |]. split; [exact Hf |].
    apply Hout. intros c [].
  - cbn [Ingest.delete_first]. destruct (decide (Chroma.name c = name)) as [Heq | Hne].
    + destruct (Hin c (or_introl eq_refl) Heq) as [s Hs].
      unfold Chroma.delete_collection, Chroma.bind.
      rewrite (request_served _ _ (pending_no_faults _ Hf)). cbn.
      rewrite Hs. eexists. split; [reflexivity |]. cbn.
      split; [rewrite Hf; reflexivity | apply lookup_delete_eq].
    + apply IH; [exact Hf | |].
      * intros c' Hc'. apply Hin. right. exact Hc'.
      * intros Hall. apply Hout. intros c' [<- | Hc']; [exact Hne | apply Hall, Hc'].
Qed.

Lemma _delete_collection_if_exists_ok name w :
  Chroma.faults w = [] ->
  exists w',
    Ingest._delete_collection_if_exists name w = (Ok tt, w')
    /\ Chroma.faults w' = []
    /\ Chroma.collections w' !! name = None.
Proof.
  intros Hf. unfold Ingest._delete_collection_if_exists, Chroma.list_collections.
  unfold Chroma.bind at 1 2.
  rewrite (request_served _ _ (pending_no_faults _ Hf)).
  apply delete_first_ok.
  - apply after_no_faults, Hf.
  - intros c Hc Hn. apply in_map_iff in Hc as ([k s] & <- & Hks).
    apply list_elem_of_In, elem_of_map_to_list in Hks.
    cbn in Hn. subst k. exists s. exact Hks.
  - intros Hall. destruct (Chroma.collections (after _ w) !! name) as [s |] eqn:Hs;
      [| reflexivity].
    exfalso. apply (Hall (Chroma.handle None (name, s))); [| reflexivity].
    apply in_map, list_elem_of_In, elem_of_map_to_list. exact Hs.
Qed.

Lemma ingest_ok c bs : forall w,
  Chroma.faults w = [] ->
  is_Some (Chroma.collections w !! Chroma.name c) ->
  exists w', Ingest.ingest c bs w = (Ok tt, w') /\ Chroma.faults w' = [].
Proof.
  induction bs as [| batch bs IH]; intros w Hf [s Hs].
  - exists w. split; [reflexivity | exact Hf].
  - cbn [Ingest.ingest]. unfold Chroma.bind at 1. unfold Chroma.add, Chroma.bind.
    rewrite (request_served _ _ (pending_no_faults _ Hf)). cbn.
    rewrite Hs. apply IH.
    + cbn. rewrite Hf. reflexivity.
    + cbn. rewrite lookup_insert_eq. eauto.
Qed.

Lemma rebuild_collection_completes name ef fp label docs batch_size w :
  Chroma.faults w = [] ->
  batch_size <> 0%Z ->
  exists c w',
    Ingest.rebuild_collection name ef fp label docs batch_size w = (Ok c, w')
    /\ Chroma.faults w' = [].
Proof.
  intros Hf Hb. unfold Ingest.rebuild_collection.
  destruct (_delete_collection_if_exists_ok name w Hf) as (w1 & Hdel & Hf1 & Hnone).
  unfold Chroma.bind at 1. rewrite Hdel.
  unfold Chroma.bind at 1. unfold Chroma.create_collection, Chroma.bind at 1.
  rewrite (request_served _ _ (pending_no_faults _ Hf1)). cbn [after Chroma.collections].
  rewrite Hnone.
  apply Z.eqb_neq in Hb. rewrite Hb.
  destruct (batch_size <? 0)%Z.
  - eexists _, _. split; [reflexivity |]. cbn. rewrite Hf1. reflexivity.
  - unfold Chroma.bind.
    match goal with
    | |- context [Ingest.ingest ?c ?bs ?w0] =>
        destruct (ingest_ok c bs w0) as (w3 & Hing & Hf3)
    end.
    + cbn. rewrite Hf1. reflexivity.
    + cbn. rewrite lookup_insert_eq. eauto.
    + rewrite Hing. eexists _, _. split; [reflexivity | exact Hf3].
Qed.

(** ** Initialisation *)

(** C10. When the client is created, the collection is fetched and its
    metadata carries the fingerprint of the current configuration under
    [embedding_config_id], [main] returns 0; the collections of the store are
    those it started with, and the only calls made are the connection and
    the fetch of the collection: nothing is listed, deleted, created or
    added. *)
Theorem main_skips_rebuild_on_matching_stamp
    (lower : str -> str) (settings : Config.Settings) (environ : gmap str str)
    (loaded : result (list Ingest.Document)) (w : Chroma.Store) (s : Chroma.Stored) :
  let name := Config.chroma_collection settings in
  let config :=
    Embedding.mkEmbeddingConfig
      (Embedding.normalise_model_name (Config.embedding_model_name settings))
      (Config.embedding_config_version settings) in
  pending w = None ->
  pending (after Chroma.CConnect w) = None ->
  Chroma.collections w !! name = Some s ->
  default ∅ (Chroma.stored_metadata s) !! embedding_config_id_key
  = Some (Chroma.MStr (fingerprint config)) ->
  exists w',
    InitEmbeddings.main lower settings environ loaded w = (Ok 0%Z, w')
    /\ Chroma.collections w' = Chroma.collections w
    /\ Chroma.log w' = Chroma.log w ++ [Chroma.CConnect; Chroma.CGetCollection name].
Proof.
  intros name config Hp0 Hp1 Hs Hstamp.
  exists (after (Chroma.CGetCollection name) (after Chroma.CConnect w)).
  split; [| split; [reflexivity | cbn; rewrite <- app_assoc; reflexivity]].
  unfold InitEmbeddings.main. fold config. rewrite config_id_ok.
  unfold Chroma.HttpClient. rewrite (request_served _ _ Hp0).
  fold name. rewrite (get_collection_found name None _ s Hp1 Hs).
  cbn [Chroma.handle Chroma.metadata fst snd]. rewrite Hstamp.
  cbn [from_option]. rewrite eq_str_refl. reflexivity.
Qed.

(** ** The score *)






(** Rounding can merge two distances: 0 and 2^-60 both get the score 1. *)
Example distance_to_score_rounds :
  Main.distance_to_score 0 = 1%float
  /\ Main.distance_to_score 0x1p-60 = 1%float
  /\ Main.distance_to_score 1 = 0.5%float
  /\ Main.distance_to_score 3 = 0.25%float.
Proof. repeat split; reflexivity. Qed.




(** ** The statements at sample inputs *)

Lemma sample_store_lookup :
  Chroma.collections sample_store !! py "utkrusht_docs"
  = Some (stamped_with sample_fingerprint).
Proof. vm_compute. reflexivity. Qed.

Lemma query_gated_by_readiness_witness :
  RagService.query (RagService.init default_settings) (py "test") 1 sample_store
  = (Raise EmbeddingConfigMismatchError, RagService.init default_settings, sample_store)
  /\ RagService.query
       (RagService.assign (RagService.init default_settings) None None false true)
       (py "test") 1 sample_store
     = (Ok (RagService.empty_answer (py "test")),
        RagService.assign (RagService.init default_settings) None None false true,
        sample_store)
  /\ exists r w',
       RagService.query sample_ready_service (py "test") 1 sample_store
       = (r, sample_ready_service, w')
       /\ Chroma.log w'
          = Chroma.log sample_store
            ++ [Chroma.CQuery (py "utkrusht_docs") (py "test") 1].
Proof.
  split; [| split].
  - apply (proj1 (query_gated_by_readiness
                    (RagService.init default_settings) (py "test") 1 sample_store)).
    left. reflexivity.
  - exact (proj2 (query_gated_by_readiness
                    (RagService.assign (RagService.init default_settings)
                       None None false true)
                    (py "test") 1 sample_store) eq_refl eq_refl).
  - exact (proj2 (query_gated_by_readiness sample_ready_service
                    (py "test") 1 sample_store) eq_refl eq_refl).
Defined.

Lemma refresh_state_existing_collection_witness :
  exists self' w',
    RagService.refresh_state (RagService.init default_settings) sample_store
    = (Ok tt, self', w')
    /\ state_is self' true (Some (Chroma.MStr sample_fingerprint)) false.
Proof.
  destruct (refresh_state_existing_collection
              (RagService.init default_settings) sample_store
              (stamped_with sample_fingerprint) eq_refl sample_store_lookup)
    as (self' & w' & Hr & Hc & Hm).
  exists self', w'. split; [exact Hr |].
  change (default ∅ (Chroma.stored_metadata (stamped_with sample_fingerprint))
          !! embedding_config_id_key)
    with (stamp sample_fingerprint (py "default") !! embedding_config_id_key) in Hm.
  unfold stamp in Hm. rewrite lookup_insert_eq in Hm.
  destruct Hm as (Hs & _ & Hd & _).
  split; [exact Hc | split; [exact Hs |]].
  rewrite Hd. vm_compute. reflexivity.
Defined.

Lemma refresh_state_store_failure_witness :
  exists self' w',
    RagService.refresh_state sample_ready_service (failing_store (StoreError 503))
    = (Raise (ChromaConnectionError (StoreError 503)), self', w')
    /\ state_is self' false None false
    /\ RagService._collection self' = None.
Proof.
  apply (refresh_state_store_failure sample_ready_service
           (failing_store (StoreError 503)) (StoreError 503)).
  - reflexivity.
  - discriminate.
Defined.

Lemma refresh_state_missing_collection_witness :
  exists self' w',
    RagService.refresh_state sample_ready_service (store_of ∅) = (Ok tt, self', w')
    /\ state_is self' true None false
    /\ (forall question k w'',
          RagService.query self' question k w''
          = (Ok (RagService.empty_answer question), self', w'')).
Proof.
  apply (refresh_state_missing_collection sample_ready_service (store_of ∅)).
  - reflexivity.
  - vm_compute. reflexivity.
Defined.

Lemma rebuild_then_refresh_witness :
  exists c w' self' w'',
    Ingest.rebuild_collection (py "utkrusht_docs") Embedding.DefaultEmbeddingFunction
      sample_fingerprint (py "default") sample_docs 32
      (store_of {[ py "utkrusht_docs" := unstamped ]})
    = (Ok c, w')
    /\ RagService.refresh_state (RagService.init default_settings) w'
       = (Ok tt, self', w'')
    /\ state_is self' true (Some (Chroma.MStr sample_fingerprint)) false.
Proof.
  destruct (Ingest.rebuild_collection (py "utkrusht_docs")
              Embedding.DefaultEmbeddingFunction sample_fingerprint (py "default")
              sample_docs 32 (store_of {[ py "utkrusht_docs" := unstamped ]}))
    as [[c | e] w'] eqn:Hreb.
  - destruct (rebuild_then_refresh _ _ _ _ _ _ _ _ _
                (RagService.init default_settings) Hreb eq_refl
                config_id_default_v1)
      as (self' & w'' & Hr & Hs).
    + vm_compute in Hreb. injection Hreb as _ <-. reflexivity.
    + exists c, w', self', w''. repeat split; try exact Hr; apply Hs.
  - vm_compute in Hreb. discriminate.
Defined.

Lemma main_skips_rebuild_on_matching_stamp_witness :
  exists w',
    InitEmbeddings.main (fun s => s) default_settings ∅ (Ok sample_docs) sample_store
    = (Ok 0%Z, w')
    /\ Chroma.collections w' = Chroma.collections sample_store
    /\ Chroma.log w'
       = Chroma.log sample_store
         ++ [Chroma.CConnect; Chroma.CGetCollection (py "utkrusht_docs")].
Proof.
  apply (main_skips_rebuild_on_matching_stamp (fun s => s) default_settings ∅
           (Ok sample_docs) sample_store (stamped_with sample_fingerprint)).
  - reflexivity.
  - reflexivity.
  - exact sample_store_lookup.
  - vm_compute. reflexivity.
Defined.

(** ** Further consequences *)

(** A missing collection is created and stamped with the current
    fingerprint. *)
Lemma main_rebuilds_missing_collection lower settings environ docs w :
  let name := Config.chroma_collection settings in
  let model :=
    Embedding.normalise_model_name (Config.embedding_model_name settings) in
  let config :=
    Embedding.mkEmbeddingConfig model (Config.embedding_config_version settings) in
  Chroma.faults w = [] ->
  Chroma.collections w !! name = None ->
  exists w',
    InitEmbeddings.main lower settings environ (Ok docs) w = (Ok 0%Z, w')
    /\ stamped name (stamp (fingerprint config) model) w'.
Proof.
  intros name model config Hf Hnone.
  unfold InitEmbeddings.main. fold model. fold config. rewrite config_id_ok.
  unfold Chroma.HttpClient. rewrite (request_served _ _ (pending_no_faults _ Hf)).
  fold name.
  rewrite (get_collection_missing name None _
             (pending_no_faults _ (after_no_faults _ _ Hf)) Hnone).
  unfold InitEmbeddings.load_and_rebuild. fold name.
  match goal with
  | |- context [Ingest.rebuild_collection ?n ?ef ?fp ?l ?d ?b ?w0] =>
      destruct (rebuild_collection_completes n ef fp l d b w0) as (c & w' & Hreb & _)
  end.
  - apply after_no_faults, after_no_faults, Hf.
  - discriminate.
  - rewrite Hreb. exists w'. split; [reflexivity |].
    eapply rebuild_collection_stamps. exact Hreb.
Qed.

(** The version tag changed and the collection was not rebuilt: refresh
    reports drift, and the query is refused. *)
Example drift_after_version_change :
  let '(r, self', w') :=
    RagService.refresh_state (RagService.init settings_v2) sample_store in
  (r, RagService._embedding_drift_detected self',
   fst (fst (RagService.query self' (py "anything") 1 w')))
  = (Ok tt, true, Raise EmbeddingConfigMismatchError).
Proof. vm_compute. reflexivity. Qed.

(** The query endpoint receives a service object that was never refreshed,
    so it answers 503 whatever the store holds. *)
Lemma query_docs_on_new_service settings request w :
  Main.query_docs request (Main.get_rag_service settings) w
  = (Raise (HTTPException 503 EmbeddingConfigMismatchError),
     Main.get_rag_service settings, w).
Proof. reflexivity. Qed.

(** * Further properties of the code *)

(** ** White space and the model name *)

Lemma lstrip_blank s : blank s -> Str.lstrip s = [].
Proof. induction 1 as [| c s Hc _ IH]; [reflexivity |]. cbn. rewrite Hc. exact IH. Qed.

Lemma lstrip_app_blank l s : blank l -> Str.lstrip (l ++ s) = Str.lstrip s.
Proof. induction 1 as [| c l Hc _ IH]; [reflexivity |]. cbn. rewrite Hc. exact IH. Qed.

Lemma lstrip_split s : exists l, blank l /\ s = l ++ Str.lstrip s.
Proof.
  induction s as [| c s (l & Hl & IH)].
  - exists []. split; [constructor | reflexivity].
  - cbn [Str.lstrip]. destruct (Str.isspace c) eqn:Hc.
    + exists (c :: l). split; [constructor; assumption |]. cbn. congruence.
    + exists []. split; [constructor | reflexivity].
Qed.

Lemma lstrip_head s c s' : Str.lstrip s = c :: s' -> Str.isspace c = false.
Proof.
  induction s as [| a s IH]; [discriminate |].
  cbn [Str.lstrip]. destruct (Str.isspace a) eqn:Ha; [exact IH |].
  intros H. injection H as <- _. exact Ha.
Qed.

Lemma lstrip_fixed s :
  (forall c s', s = c :: s' -> Str.isspace c = false) -> Str.lstrip s = s.
Proof.
  destruct s as [| c s]; [reflexivity |]. intros H.
  cbn. rewrite (H c s eq_refl). reflexivity.
Qed.

Lemma lstrip_app s r :
  Str.lstrip (s ++ r)
  = match Str.lstrip s with [] => Str.lstrip r | _ => Str.lstrip s ++ r end.
Proof.
  induction s as [| c s IH]; [cbn; destruct (Str.lstrip r); reflexivity |].
  cbn [app Str.lstrip]. destruct (Str.isspace c); [exact IH | reflexivity].
Qed.

Lemma blank_rev s : blank s -> blank (rev s).
Proof. apply Forall_rev. Qed.

Lemma rstrip_app_blank s r : blank r -> Str.rstrip (s ++ r) = Str.rstrip s.
Proof.
  intros Hr. unfold Str.rstrip. rewrite rev_app_distr.
  rewrite (lstrip_app_blank _ _ (blank_rev _ Hr)). reflexivity.
Qed.

Lemma rstrip_split s : exists r, blank r /\ s = Str.rstrip s ++ r.
Proof.
  unfold Str.rstrip. destruct (lstrip_split (rev s)) as (l & Hl & Hs).
  exists (rev l). split; [apply blank_rev, Hl |].
  rewrite <- rev_app_distr, <- Hs, rev_involutive. reflexivity.
Qed.

Lemma rstrip_last s c s' : Str.rstrip s = s' ++ [c] -> Str.isspace c = false.
Proof.
  unfold Str.rstrip. intros H. apply (f_equal (@rev N)) in H.
  rewrite rev_involutive, rev_app_distr in H. cbn in H.
  eapply lstrip_head. exact H.
Qed.

Lemma rstrip_fixed s :
  (forall c s', s = s' ++ [c] -> Str.isspace c = false) -> Str.rstrip s = s.
Proof.
  intros H. unfold Str.rstrip. rewrite lstrip_fixed; [apply rev_involutive |].
  intros c s' Hs. apply (H c (rev s')).
  rewrite <- (rev_involutive s), Hs. reflexivity.
Qed.

Lemma rstrip_head s c s' :
  (forall a t, s = a :: t -> Str.isspace a = false) ->
  Str.rstrip s = c :: s' -> Str.isspace c = false.
Proof.
  intros Hs H. destruct (rstrip_split s) as (r & _ & Hsplit).
  rewrite H in Hsplit. apply (Hs c (s' ++ r)). exact Hsplit.
Qed.

Lemma strip_trimmed s : trimmed (Str.strip s).
Proof.
  unfold Str.strip. split.
  - intros c s' H. eapply rstrip_head; [| exact H].
    intros a t Ht. eapply lstrip_head. exact Ht.
  - intros c s' H. eapply rstrip_last. exact H.
Qed.

Lemma strip_fixed s : trimmed s -> Str.strip s = s.
Proof.
  intros [Hh Hl]. unfold Str.strip.
  rewrite (lstrip_fixed _ Hh). apply rstrip_fixed, Hl.
Qed.

Lemma strip_split s : exists l r, blank l /\ blank r /\ s = l ++ Str.strip s ++ r.
Proof.
  destruct (lstrip_split s) as (l & Hl & Hs).
  destruct (rstrip_split (Str.lstrip s)) as (r & Hr & Ht).
  exists l, r. split; [exact Hl | split; [exact Hr |]].
  unfold Str.strip. rewrite <- Ht. exact Hs.
Qed.

Lemma strip_blank s : blank s -> Str.strip s = [].
Proof. intros H. unfold Str.strip. rewrite (lstrip_blank _ H). reflexivity. Qed.

Lemma strip_nil_blank s : Str.strip s = [] -> blank s.
Proof.
  intros H. destruct (strip_split s) as (l & r & Hl & Hr & Hs).
  rewrite H in Hs. rewrite Hs. apply Forall_app. split; assumption.
Qed.

Lemma strip_padding l s r :
  blank l -> blank r -> Str.strip (l ++ s ++ r) = Str.strip s.
Proof.
  intros Hl Hr. unfold Str.strip.
  rewrite (lstrip_app_blank _ _ Hl), lstrip_app.
  destruct (Str.lstrip s) as [| c t] eqn:Hs.
  - rewrite (lstrip_blank _ Hr). reflexivity.
  - apply rstrip_app_blank, Hr.
Qed.

(** X1. White space around a model name does not count: a non-empty name
    and the same name padded with white space on either side are normalised
    to the same string, and the same embedding function is built for
    both. *)
Theorem normalise_model_name_ignores_padding (l s r : str) :
  blank l -> blank r -> s <> [] ->
  Embedding.normalise_model_name (Some (l ++ s ++ r))
  = Embedding.normalise_model_name (Some s)
  /\ Embedding.build_embedding_function (Some (l ++ s ++ r))
     = Embedding.build_embedding_function (Some s).
Proof.
  intros Hl Hr Hs.
  assert (H : Embedding.normalise_model_name (Some (l ++ s ++ r))
              = Embedding.normalise_model_name (Some s)).
  { rewrite !normalise_nonempty; [apply strip_padding; assumption | exact Hs |].
    destruct l; [destruct s; [congruence | discriminate] | discriminate]. }
  split; [exact H |]. unfold Embedding.build_embedding_function. rewrite H. reflexivity.
Qed.

Lemma normalise_model_name_ignores_padding_witness :
  Embedding.normalise_model_name (Some (py "  " ++ py "all-MiniLM-L6-v2" ++ py " "))
  = Embedding.normalise_model_name (Some (py "all-MiniLM-L6-v2")).
Proof.
  apply (normalise_model_name_ignores_padding (py "  ") (py "all-MiniLM-L6-v2") (py " ")).
  - repeat constructor.
  - repeat constructor.
  - discriminate.
Defined.

Lemma normalise_cases raw :
  (Embedding.normalise_model_name raw = py "default" /\ Str.truthy raw = false)
  \/ (exists s, raw = Some s /\ s <> []
                /\ Embedding.normalise_model_name raw = Str.strip s).
Proof.
  destruct raw as [[| c s] |]; [left | right | left]; try (split; reflexivity).
  exists (c :: s). repeat split. discriminate.
Qed.

(** X2. The normalised model name never starts or ends with white space.
    It is empty exactly when the setting is a non-empty string of white
    space only; in every other case normalising it again changes
    nothing. *)
Theorem normalise_model_name_trimmed (raw : option str) :
  trimmed (Embedding.normalise_model_name raw)
  /\ (Embedding.normalise_model_name raw = []
      <-> exists s, raw = Some s /\ s <> [] /\ blank s)
  /\ (Embedding.normalise_model_name raw <> [] ->
      Embedding.normalise_model_name (Some (Embedding.normalise_model_name raw))
      = Embedding.normalise_model_name raw).
Proof.
  destruct (normalise_cases raw) as [[Hd Ht] | (s & -> & Hs & Hn)].
  - rewrite Hd. split; [| split].
    + split; intros c s' H.
      * injection H as <- _. reflexivity.
      * change (py "default") with ([100; 101; 102; 97; 117; 108] ++ [116]) in H.
        apply app_inj_tail in H as [_ <-]. reflexivity.
    + split; [discriminate |]. intros (s & -> & Hs & _).
      destruct s; [congruence | discriminate].
    + intros _. reflexivity.
  - rewrite Hn. split; [apply strip_trimmed | split].
    + split.
      * intros H. exists s. repeat split; [exact Hs | apply strip_nil_blank, H].
      * intros (s' & Heq & _ & Hb). injection Heq as <-. apply strip_blank, Hb.
    + intros Hne. rewrite (normalise_nonempty _ Hne).
      apply strip_fixed, strip_trimmed.
Qed.

Lemma normalise_model_name_trimmed_witness :
  Embedding.normalise_model_name
    (Some (Embedding.normalise_model_name (Some (py " Foo "))))
  = Embedding.normalise_model_name (Some (py " Foo ")).
Proof.
  apply (normalise_model_name_trimmed (Some (py " Foo "))). discriminate.
Defined.

(** ** What the rebuild does to the store *)

Lemma bind_inv {A B} (m : Chroma.M A) (k : A -> Chroma.M B) w r w' :
  Chroma.bind m k w = (r, w') ->
  (exists a w1, m w = (Ok a, w1) /\ k a w1 = (r, w'))
  \/ (exists e, m w = (Raise e, w') /\ r = Raise e).
Proof.
  unfold Chroma.bind. destruct (m w) as [[a | e] w1]; intros H.
  - left. eauto.
  - right. injection H as <- <-. eauto.
Qed.

Lemma same_elsewhere_refl name w : same_elsewhere name w w.
Proof. intros n _. reflexivity. Qed.

Lemma same_elsewhere_trans name w1 w2 w3 :
  same_elsewhere name w1 w2 -> same_elsewhere name w2 w3 -> same_elsewhere name w1 w3.
Proof. intros H12 H23 n Hn. rewrite (H23 n Hn). apply H12, Hn. Qed.

Lemma same_elsewhere_eq name w w' :
  Chroma.collections w' = Chroma.collections w -> same_elsewhere name w w'.
Proof. intros H n _. rewrite H. reflexivity. Qed.

Ltac same_store := apply same_elsewhere_eq; reflexivity.

Lemma request_elsewhere name c w r w' :
  Chroma.request c w = (r, w') -> same_elsewhere name w w'.
Proof. intros H. apply request_store in H as ->. same_store. Qed.

Lemma delete_collection_elsewhere name w r w' :
  Chroma.delete_collection name w = (r, w') -> same_elsewhere name w w'.
Proof.
  unfold Chroma.delete_collection. intros H.
  apply bind_inv in H as [([] & w1 & Hreq & H) | (e & Hreq & _)];
    [| eapply request_elsewhere; exact Hreq].
  apply request_store in Hreq as ->. cbn in H.
  destruct (Chroma.collections w !! name); injection H as _ <-.
  - intros n Hn. cbn. apply lookup_delete_ne. congruence.
  - same_store.
Qed.

Lemma delete_first_elsewhere name cs : forall w r w',
  Ingest.delete_first name cs w = (r, w') -> same_elsewhere name w w'.
Proof.
  induction cs as [| c cs IH]; intros w r w' H.
  - injection H as _ <-. same_store.
  - cbn [Ingest.delete_first] in H. destruct (decide (Chroma.name c = name)).
    + eapply delete_collection_elsewhere. exact H.
    + eapply IH. exact H.
Qed.

Lemma _delete_collection_if_exists_elsewhere name w r w' :
  Ingest._delete_collection_if_exists name w = (r, w') -> same_elsewhere name w w'.
Proof.
  unfold Ingest._delete_collection_if_exists, Chroma.list_collections. intros H.
  apply bind_inv in H as [(cs & w1 & Hl & H) | (e & Hl & _)].
  - apply bind_inv in Hl as [([] & w0 & Hreq & Hl) | (e & Hreq & Hl)]; [| discriminate].
    injection Hl as _ <-. apply request_store in Hreq as ->.
    eapply delete_first_elsewhere in H. exact H.
  - apply bind_inv in Hl as [([] & w0 & Hreq & Hl) | (e' & Hreq & _)].
    + discriminate.
    + eapply request_elsewhere. exact Hreq.
Qed.

Lemma create_collection_elsewhere name meta ef w r w' :
  Chroma.create_collection name meta ef w = (r, w') -> same_elsewhere name w w'.
Proof.
  unfold Chroma.create_collection. intros H.
  apply bind_inv in H as [([] & w1 & Hreq & H) | (e & Hreq & _)];
    [| eapply request_elsewhere; exact Hreq].
  apply request_store in Hreq as ->. cbn in H.
  destruct (Chroma.collections w !! name); injection H as _ <-.
  - same_store.
  - intros n Hn. cbn. apply lookup_insert_ne. congruence.
Qed.

Lemma add_elsewhere c batch w r w' :
  Chroma.add c batch w = (r, w') -> same_elsewhere (Chroma.name c) w w'.
Proof.
  unfold Chroma.add. intros H.
  apply bind_inv in H as [([] & w1 & Hreq & H) | (e & Hreq & _)];
    [| eapply request_elsewhere; exact Hreq].
  apply request_store in Hreq as ->. cbn in H.
  destruct (Chroma.collections w !! Chroma.name c); injection H as _ <-.
  - intros n Hn. cbn. apply lookup_insert_ne. congruence.
  - same_store.
Qed.

Lemma ingest_elsewhere c bs : forall w r w',
  Ingest.ingest c bs w = (r, w') -> same_elsewhere (Chroma.name c) w w'.
Proof.
  induction bs as [| batch bs IH]; intros w r w' H.
  - injection H as _ <-. same_store.
  - cbn [Ingest.ingest] in H.
    apply bind_inv in H as [([] & w1 & Hadd & H) | (e & Hadd & _)].
    + eapply same_elsewhere_trans; [eapply add_elsewhere; exact Hadd | eapply IH; exact H].
    + eapply add_elsewhere. exact Hadd.
Qed.

Lemma create_collection_name name meta ef w c w' :
  Chroma.create_collection name meta ef w = (Ok c, w') -> Chroma.name c = name.
Proof. intros H. apply create_collection_ok in H as [H _]. exact H. Qed.

(** X3. Whatever the store answers, and whether the rebuild returns or
    raises, the collections under other names are exactly as before: the
    rebuild touches only the collection it was called for. *)
Theorem rebuild_collection_touches_one_name
    (name : str) (ef : Embedding.embedding_function) (fp label : str)
    (docs : list Ingest.Document) (batch_size : Z)
    (w w' : Chroma.Store) (r : result Chroma.Collection) :
  Ingest.rebuild_collection name ef fp label docs batch_size w = (r, w') ->
  same_elsewhere name w w'.
Proof.
  unfold Ingest.rebuild_collection. intros H.
  apply bind_inv in H as [([] & w1 & Hdel & H) | (e & Hdel & _)];
    [| eapply _delete_collection_if_exists_elsewhere; exact Hdel].
  apply _delete_collection_if_exists_elsewhere in Hdel.
  eapply same_elsewhere_trans; [exact Hdel |].
  apply bind_inv in H as [(c & w2 & Hcr & H) | (e & Hcr & _)];
    [| eapply create_collection_elsewhere; exact Hcr].
  pose proof (create_collection_name _ _ _ _ _ _ Hcr) as Hn.
  apply create_collection_elsewhere in Hcr.
  eapply same_elsewhere_trans; [exact Hcr |].
  assert (Hing : forall r3 w3,
    (if (batch_size =? 0)%Z then Chroma.raise ValueError
     else if (batch_size <? 0)%Z then Chroma.ret tt
     else Ingest.ingest c (Ingest.batches (length docs) (Z.to_nat batch_size) docs)) w2
    = (r3, w3) -> same_elsewhere name w2 w3).
  { intros r3 w3 H3. destruct (batch_size =? 0)%Z;
      [injection H3 as _ <-; same_store |].
    destruct (batch_size <? 0)%Z;
      [injection H3 as _ <-; same_store |].
    rewrite <- Hn. eapply ingest_elsewhere. exact H3. }
  apply bind_inv in H as [([] & w3 & H3 & H) | (e & H3 & _)].
  - injection H as _ <-. eapply Hing. exact H3.
  - eapply Hing. exact H3.
Qed.

Lemma rebuild_collection_touches_one_name_witness :
  Chroma.collections
    (snd (Ingest.rebuild_collection (py "other") Embedding.DefaultEmbeddingFunction
            sample_fingerprint (py "default") sample_docs 32 sample_store))
  !! py "utkrusht_docs"
  = Chroma.collections sample_store !! py "utkrusht_docs".
Proof.
  destruct (Ingest.rebuild_collection (py "other") Embedding.DefaultEmbeddingFunction
              sample_fingerprint (py "default") sample_docs 32 sample_store)
    as [r w'] eqn:H.
  apply (rebuild_collection_touches_one_name _ _ _ _ _ _ _ _ _ H).
  discriminate.
Defined.

Lemma batches_concat size : (0 < size)%nat -> forall fuel docs,
  (length docs <= fuel)%nat ->
  concat (Ingest.batches fuel size docs) = docs.
Proof.
  intros Hsize. induction fuel as [| fuel IH]; intros docs Hlen.
  - destruct docs; [reflexivity | cbn in Hlen; lia].
  - destruct docs as [| d docs]; [reflexivity |].
    cbn [Ingest.batches concat]. rewrite IH; [apply firstn_skipn |].
    rewrite length_skipn. cbn [length] in *. lia.
Qed.

Lemma batches_bounds size : (0 < size)%nat -> forall fuel docs,
  Forall (fun b => b <> [] /\ (length b <= size)%nat) (Ingest.batches fuel size docs).
Proof.
  intros Hsize. induction fuel as [| fuel IH]; intros docs; [constructor |].
  destruct docs as [| d docs]; [constructor |].
  cbn [Ingest.batches]. constructor; [| apply IH]. split.
  - destruct size; [lia | discriminate].
  - rewrite length_firstn. lia.
Qed.

Lemma calls_between_refl w : calls_between w w [].
Proof. unfold calls_between. rewrite app_nil_r. reflexivity. Qed.

Lemma calls_between_trans w1 w2 w3 l1 l2 :
  calls_between w1 w2 l1 -> calls_between w2 w3 l2 -> calls_between w1 w3 (l1 ++ l2).
Proof. unfold calls_between. intros H1 H2. rewrite H2, H1, app_assoc. reflexivity. Qed.

Lemma delete_first_exact name cs : forall w,
  Chroma.faults w = [] ->
  (forall c, In c cs -> Chroma.name c = name ->
             is_Some (Chroma.collections w !! name)) ->
  ((forall c, In c cs -> Chroma.name c <> name) ->
   Chroma.collections w !! name = None) ->
  exists w',
    Ingest.delete_first name cs w = (Ok tt, w')
    /\ Chroma.faults w' = []
    /\ Chroma.collections w' = delete name (Chroma.collections w)
    /\ calls_between w w'
         (match Chroma.collections w !! name with
          | Some _ => [Chroma.CDeleteCollection name]
          | None => []
          end).
Proof.
  induction cs as [| c cs IH]; intros w Hf Hin Hout.
  - exists w. assert (Hn : Chroma.collections w !! name = None) by (apply Hout; intros c []).
    split; [reflexivity |]. split; [exact Hf |].
    rewrite Hn. split; [symmetry; apply delete_id, Hn | apply calls_between_refl].
  - cbn [Ingest.delete_first]. destruct (decide (Chroma.name c = name)) as [Heq | Hne].
    + destruct (Hin c (or_introl eq_refl) Heq) as [s Hs].
      unfold Chroma.delete_collection, Chroma.bind.
      rewrite (request_served _ _ (pending_no_faults _ Hf)). cbn.
      rewrite Hs. eexists. split; [reflexivity |]. cbn.
      split; [rewrite Hf; reflexivity |]. split; reflexivity.
    + apply IH; [exact Hf | |].
      * intros c' Hc'. apply Hin. right. exact Hc'.
      * intros Hall. apply Hout. intros c' [<- | Hc']; [exact Hne | apply Hall, Hc'].
Qed.

Lemma _delete_collection_if_exists_exact (name : str) (w : Chroma.Store) :
  Chroma.faults w = [] ->
  exists w',
    Ingest._delete_collection_if_exists name w = (Ok tt, w')
    /\ Chroma.faults w' = []
    /\ Chroma.collections w' = delete name (Chroma.collections w)
    /\ calls_between w w'
         (Chroma.CListCollections ::
          match Chroma.collections w !! name with
          | Some _ => [Chroma.CDeleteCollection name]
          | None => []
          end)
    /\ (Chroma.collections w !! name = None ->
        Chroma.collections w' = Chroma.collections w).
Proof.
  intros Hf. unfold Ingest._delete_collection_if_exists, Chroma.list_collections.
  unfold Chroma.bind at 1 2.
  rewrite (request_served _ _ (pending_no_faults _ Hf)).
  destruct (delete_first_exact name
              (List.map (Chroma.handle None)
                 (map_to_list (Chroma.collections (after Chroma.CListCollections w))))
              (after Chroma.CListCollections w))
    as (w' & Hd & Hf' & Hc & Hl).
  - apply after_no_faults, Hf.
  - intros c Hc Hn. apply in_map_iff in Hc as ([k s] & <- & Hks).
    apply list_elem_of_In, elem_of_map_to_list in Hks.
    cbn in Hn. subst k. exists s. exact Hks.
  - intros Hall. destruct (Chroma.collections (after _ w) !! name) as [s |] eqn:Hs;
      [| reflexivity].
    exfalso. apply (Hall (Chroma.handle None (name, s))); [| reflexivity].
    apply in_map, list_elem_of_In, elem_of_map_to_list. exact Hs.
  - exists w'. split; [exact Hd |]. split; [exact Hf' |]. split; [exact Hc |]. split.
    + apply (calls_between_trans w (after Chroma.CListCollections w) w'
               [Chroma.CListCollections]); [reflexivity | exact Hl].
    + intros Hn. rewrite Hc. apply delete_id, Hn.
Qed.

(** X4. On a store that serves every call, [_delete_collection_if_exists]
    returns normally and leaves the store without the named collection and
    with every other collection as it was.  It lists the collections once
    and deletes only if the name was there: called on a store without the
    collection it changes nothing. *)
Theorem _delete_collection_if_exists_removes (name : str) (w : Chroma.Store) :
  Chroma.faults w = [] ->
  exists w',
    Ingest._delete_collection_if_exists name w = (Ok tt, w')
    /\ Chroma.faults w' = []
    /\ Chroma.collections w' = delete name (Chroma.collections w)
    /\ calls_between w w'
         (Chroma.CListCollections ::
          match Chroma.collections w !! name with
          | Some _ => [Chroma.CDeleteCollection name]
          | None => []
          end)
    /\ (Chroma.collections w !! name = None ->
        Chroma.collections w' = Chroma.collections w).
Proof. exact (_delete_collection_if_exists_exact name w). Qed.

Lemma _delete_collection_if_exists_removes_witness :
  exists w',
    Ingest._delete_collection_if_exists (py "utkrusht_docs") sample_store = (Ok tt, w')
    /\ Chroma.collections w' !! py "utkrusht_docs" = None.
Proof.
  destruct (_delete_collection_if_exists_removes (py "utkrusht_docs") sample_store eq_refl)
    as (w' & Hd & _ & Hc & _).
  exists w'. split; [exact Hd |]. rewrite Hc. apply lookup_delete_eq.
Defined.

Lemma stored_eta s :
  {| Chroma.stored_metadata := Chroma.stored_metadata s;
     Chroma.stored_records := Chroma.stored_records s ++ [] |} = s.
Proof. destruct s. cbn. rewrite app_nil_r. reflexivity. Qed.

Lemma ingest_exact c bs : forall w s,
  Chroma.faults w = [] ->
  Chroma.collections w !! Chroma.name c = Some s ->
  exists w',
    Ingest.ingest c bs w = (Ok tt, w')
    /\ Chroma.faults w' = []
    /\ Chroma.collections w'
       = <[Chroma.name c :=
             {| Chroma.stored_metadata := Chroma.stored_metadata s;
                Chroma.stored_records :=
                  Chroma.stored_records s ++ List.map Ingest.record_of (concat bs) |}]>
           (Chroma.collections w)
    /\ calls_between w w' (List.map (add_call (Chroma.name c)) bs).
Proof.
  induction bs as [| batch bs IH]; intros w s Hf Hs.
  - exists w. split; [reflexivity |]. split; [exact Hf |]. split.
    + cbn [concat List.map]. rewrite stored_eta. symmetry. apply insert_id, Hs.
    + apply calls_between_refl.
  - cbn [Ingest.ingest]. unfold Chroma.bind at 1. unfold Chroma.add, Chroma.bind.
    rewrite (request_served _ _ (pending_no_faults _ Hf)). cbn [after Chroma.collections].
    rewrite Hs.
    match goal with
    | |- context [Ingest.ingest c bs ?w0] =>
        destruct (IH w0 {| Chroma.stored_metadata := Chroma.stored_metadata s;
                           Chroma.stored_records :=
                             Chroma.stored_records s ++ List.map Ingest.record_of batch |})
          as (w' & Hi & Hf' & Hc & Hl)
    end.
    + cbn. rewrite Hf. reflexivity.
    + cbn. apply lookup_insert_eq.
    + exists w'. split; [exact Hi |]. split; [exact Hf' |]. split.
      * rewrite Hc. cbn. rewrite insert_insert_eq.
        cbn [concat]. rewrite map_app, app_assoc. reflexivity.
      * unfold calls_between in *. rewrite Hl. cbn.
        rewrite <- app_assoc. unfold add_call at 2.
        rewrite map_map. reflexivity.
Qed.

Lemma rebuild_collection_exact
    (name : str) (ef : Embedding.embedding_function) (fp label : str)
    (docs : list Ingest.Document) (batch_size : Z) (w : Chroma.Store) :
  Chroma.faults w = [] ->
  (0 < batch_size)%Z ->
  exists c w' bs,
    Ingest.rebuild_collection name ef fp label docs batch_size w = (Ok c, w')
    /\ Chroma.collections w' !! name = Some (rebuilt fp label docs)
    /\ Chroma.faults w' = []
    /\ concat bs = docs
    /\ Forall (fun b => b <> [] /\ (Z.of_nat (length b) <= batch_size)%Z) bs
    /\ calls_between w w'
         (Chroma.CListCollections ::
          match Chroma.collections w !! name with
          | Some _ => [Chroma.CDeleteCollection name]
          | None => []
          end
          ++ Chroma.CCreateCollection name (stamp fp label)
             :: List.map (add_call name) bs).
Proof.
  intros Hf Hb. unfold Ingest.rebuild_collection.
  destruct (_delete_collection_if_exists_exact name w Hf)
    as (w1 & Hdel & Hf1 & Hc1 & Hl1 & _).
  unfold Chroma.bind at 1. rewrite Hdel.
  unfold Chroma.bind at 1. unfold Chroma.create_collection, Chroma.bind at 1.
  rewrite (request_served _ _ (pending_no_faults _ Hf1)). cbn [after Chroma.collections].
  rewrite Hc1, lookup_delete_eq.
  replace (batch_size =? 0)%Z with false by (symmetry; apply Z.eqb_neq; lia).
  replace (batch_size <? 0)%Z with false by (symmetry; apply Z.ltb_ge; lia).
  unfold Chroma.bind.
  set (bs := Ingest.batches (length docs) (Z.to_nat batch_size) docs).
  match goal with
  | |- context [Ingest.ingest ?c bs ?w0] =>
      destruct (ingest_exact c bs w0
                  {| Chroma.stored_metadata := Some (stamp fp label);
                     Chroma.stored_records := [] |})
        as (w3 & Hing & Hf3 & Hc3 & Hl3)
  end.
  - cbn. rewrite Hf1. reflexivity.
  - cbn. apply lookup_insert_eq.
  - rewrite Hing. eexists _, w3, bs. split; [reflexivity |].
    assert (Hsize : (0 < Z.to_nat batch_size)%nat) by lia.
    split; [| split; [exact Hf3 | split; [| split]]].
    + rewrite Hc3. cbn [Chroma.handle Chroma.name fst]. rewrite lookup_insert_eq.
      cbn. unfold bs. rewrite (batches_concat _ Hsize) by lia. reflexivity.
    + apply batches_concat; [exact Hsize | lia].
    + generalize (batches_bounds _ Hsize (length docs) docs). fold bs.
      apply List.Forall_impl. intros b [Hne Hlen]. split; [exact Hne | lia].
    + unfold calls_between in *. cbn [Chroma.handle Chroma.name fst] in Hl3.
      rewrite Hl3. cbn. rewrite Hl1. cbn.
      rewrite <- !app_assoc. reflexivity.
Qed.

(** X5. On a store that serves every call and with a positive batch size,
    [rebuild_collection] returns normally.  Afterwards the named collection
    carries the two stamps and holds exactly the given documents, in their
    order, each once; what it held before is gone.  The calls made are: one
    listing, one deletion if the collection existed, one creation, and one
    [add] per batch, each batch non-empty and of at most [batch_size]
    documents. *)
Theorem rebuild_collection_loads_all
    (name : str) (ef : Embedding.embedding_function) (fp label : str)
    (docs : list Ingest.Document) (batch_size : Z) (w : Chroma.Store) :
  Chroma.faults w = [] ->
  (0 < batch_size)%Z ->
  exists c w' bs,
    Ingest.rebuild_collection name ef fp label docs batch_size w = (Ok c, w')
    /\ Chroma.collections w' !! name = Some (rebuilt fp label docs)
    /\ Chroma.faults w' = []
    /\ concat bs = docs
    /\ Forall (fun b => b <> [] /\ (Z.of_nat (length b) <= batch_size)%Z) bs
    /\ calls_between w w'
         (Chroma.CListCollections ::
          match Chroma.collections w !! name with
          | Some _ => [Chroma.CDeleteCollection name]
          | None => []
          end
          ++ Chroma.CCreateCollection name (stamp fp label)
             :: List.map (add_call name) bs).
Proof. exact (rebuild_collection_exact name ef fp label docs batch_size w). Qed.

Lemma rebuild_collection_loads_all_witness :
  exists c w',
    Ingest.rebuild_collection (py "utkrusht_docs") Embedding.DefaultEmbeddingFunction
      sample_fingerprint (py "default") sample_docs 1 sample_store = (Ok c, w')
    /\ Chroma.collections w' !! py "utkrusht_docs"
       = Some (rebuilt sample_fingerprint (py "default") sample_docs).
Proof.
  destruct (rebuild_collection_loads_all (py "utkrusht_docs")
              Embedding.DefaultEmbeddingFunction sample_fingerprint (py "default")
              sample_docs 1 sample_store eq_refl eq_refl)
    as (c & w' & bs & Hr & Hc & _).
  exists c, w'. split; assumption.
Defined.

Lemma create_after_delete name meta ef w :
  Chroma.faults w = [] ->
  exists w1 w2,
    Ingest._delete_collection_if_exists name w = (Ok tt, w1)
    /\ Chroma.create_collection name meta (Some ef) w1
       = (Ok (Chroma.handle (Some ef)
                (name, {| Chroma.stored_metadata := Some meta;
                          Chroma.stored_records := [] |})), w2)
    /\ Chroma.faults w2 = []
    /\ Chroma.collections w2 !! name
       = Some {| Chroma.stored_metadata := Some meta; Chroma.stored_records := [] |}
    /\ Forall (fun c => forall b, c <> Chroma.CAdd name b)
         (drop (length (Chroma.log w)) (Chroma.log w2)).
Proof.
  intros Hf.
  destruct (_delete_collection_if_exists_exact name w Hf)
    as (w1 & Hdel & Hf1 & Hc1 & Hl1 & _).
  exists w1. eexists. split; [exact Hdel |].
  unfold Chroma.create_collection, Chroma.bind.
  rewrite (request_served _ _ (pending_no_faults _ Hf1)). cbn [after Chroma.collections].
  rewrite Hc1, lookup_delete_eq. split; [reflexivity |].
  split; [cbn; rewrite Hf1; reflexivity |].
  split; [cbn; apply lookup_insert_eq |].
  cbn. rewrite Hl1, <- app_assoc, drop_app_length.
  destruct (Chroma.collections w !! name); repeat constructor; discriminate.
Qed.

(** X6. A batch size that is not positive loads nothing, on a store that
    serves every call.  The collection is still dropped and created anew
    with its stamps, so it ends empty whatever documents were given, and no
    [add] call is made.  With the batch size 0 the rebuild then raises
    [ValueError] (the step of [range]); with a negative one it returns
    normally. *)
Theorem rebuild_collection_without_positive_batch_size
    (name : str) (ef : Embedding.embedding_function) (fp label : str)
    (docs : list Ingest.Document) (batch_size : Z) (w : Chroma.Store) :
  Chroma.faults w = [] ->
  (batch_size <= 0)%Z ->
  exists r w',
    Ingest.rebuild_collection name ef fp label docs batch_size w = (r, w')
    /\ Chroma.collections w' !! name = Some (rebuilt fp label [])
    /\ Forall (fun c => forall b, c <> Chroma.CAdd name b)
         (drop (length (Chroma.log w)) (Chroma.log w'))
    /\ (batch_size = 0%Z -> r = Raise ValueError)
    /\ (batch_size < 0 -> exists c, r = Ok c)%Z.
Proof.
  intros Hf Hb. unfold Ingest.rebuild_collection.
  destruct (create_after_delete name (stamp fp label) ef w Hf)
    as (w1 & w2 & Hdel & Hcr & Hf2 & Hc2 & Hl2).
  unfold Chroma.bind at 1. rewrite Hdel.
  unfold Chroma.bind at 1. fold (stamp fp label). rewrite Hcr.
  unfold Chroma.bind.
  destruct (Z.eqb_spec batch_size 0) as [-> | Hne].
  - cbn. eexists _, w2. split; [reflexivity |].
    split; [exact Hc2 | split; [exact Hl2 | split; [reflexivity | lia]]].
  - replace (batch_size <? 0)%Z with true by (symmetry; apply Z.ltb_lt; lia).
    cbn. eexists _, w2. split; [reflexivity |].
    split; [exact Hc2 | split; [exact Hl2 | split; [congruence | eauto]]].
Qed.

Lemma rebuild_collection_without_positive_batch_size_witness :
  exists w',
    Ingest.rebuild_collection (py "utkrusht_docs") Embedding.DefaultEmbeddingFunction
      sample_fingerprint (py "default") sample_docs 0 sample_store
    = (Raise ValueError, w')
    /\ Chroma.collections w' !! py "utkrusht_docs"
       = Some (rebuilt sample_fingerprint (py "default") []).
Proof.
  destruct (rebuild_collection_without_positive_batch_size (py "utkrusht_docs")
              Embedding.DefaultEmbeddingFunction sample_fingerprint (py "default")
              sample_docs 0 sample_store eq_refl)
    as (r & w' & Hr & Hc & _ & H0 & _).
  - discriminate.
  - exists w'. rewrite <- (H0 eq_refl). split; assumption.
Defined.

Lemma delete_first_no_match name cs w :
  (forall c, In c cs -> Chroma.name c <> name) ->
  Ingest.delete_first name cs w = (Ok tt, w).
Proof.
  induction cs as [| c cs IH]; intros H; [reflexivity |].
  cbn [Ingest.delete_first]. destruct (decide (Chroma.name c = name)) as [Heq | _].
  - exfalso. exact (H c (or_introl eq_refl) Heq).
  - apply IH. intros c' Hc'. apply H. right. exact Hc'.
Qed.

Lemma _delete_collection_if_exists_absent name w :
  pending w = None ->
  Chroma.collections w !! name = None ->
  Ingest._delete_collection_if_exists name w
  = (Ok tt, after Chroma.CListCollections w).
Proof.
  intros Hp Hn. unfold Ingest._delete_collection_if_exists, Chroma.list_collections.
  unfold Chroma.bind. rewrite (request_served _ _ Hp).
  apply delete_first_no_match.
  intros c Hc Heq. apply in_map_iff in Hc as ([k s] & <- & Hks).
  apply list_elem_of_In, elem_of_map_to_list in Hks. cbn in Heq. subst k.
  cbn in Hks. congruence.
Qed.

(** X7. There is no rollback.  If the listing and the creation are served
    and the first [add] raises, the rebuild raises that exception and leaves
    the collection created, empty, and already stamped with the new
    fingerprint.  A service whose configuration has this fingerprint then
    refreshes to connected and no drift, although none of the documents was
    loaded. *)
Theorem rebuild_collection_failed_add_leaves_stamp
    (name : str) (ef : Embedding.embedding_function) (fp label : str)
    (d : Ingest.Document) (docs : list Ingest.Document) (batch_size : Z)
    (w : Chroma.Store) (e : exn) (self : RagService.RAGService) :
  Chroma.collections w !! name = None ->
  Chroma.faults w = [None; None; Some e] ->
  (0 < batch_size)%Z ->
  Config.chroma_collection (RagService._settings self) = name ->
  Embedding.config_id (RagService._embedding_config self) = Ok fp ->
  exists w' self' w'',
    Ingest.rebuild_collection name ef fp label (d :: docs) batch_size w = (Raise e, w')
    /\ Chroma.collections w' !! name = Some (rebuilt fp label [])
    /\ RagService.refresh_state self w' = (Ok tt, self', w'')
    /\ state_is self' true (Some (Chroma.MStr fp)) false
    /\ RagService.is_ready self' = true.
Proof.
  intros Hn Hf Hb Hname Hfp. unfold Ingest.rebuild_collection.
  assert (Hp0 : pending w = None) by (unfold pending; rewrite Hf; reflexivity).
  unfold Chroma.bind at 1. rewrite (_delete_collection_if_exists_absent _ _ Hp0 Hn).
  unfold Chroma.bind at 1. unfold Chroma.create_collection, Chroma.bind at 1.
  rewrite request_served by (unfold pending; cbn; rewrite Hf; reflexivity).
  cbn [after Chroma.collections]. rewrite Hn.
  replace (batch_size =? 0)%Z with false by (symmetry; apply Z.eqb_neq; lia).
  replace (batch_size <? 0)%Z with false by (symmetry; apply Z.ltb_ge; lia).
  cbn [length Ingest.batches Ingest.ingest].
  unfold Chroma.bind at 1 2. unfold Chroma.add, Chroma.bind at 1.
  rewrite (request_fault _ _ e) by (unfold pending; cbn; rewrite Hf; reflexivity).
  match goal with
  | |- exists w' _ _, (_, ?w0) = _ /\ _ =>
      assert (Hs0 : Chroma.collections w0 !! name = Some (rebuilt fp label []))
        by (cbn; apply lookup_insert_eq);
      assert (Hs : Chroma.collections w0
                   !! Config.chroma_collection (RagService._settings self)
                   = Some (rebuilt fp label []))
        by (rewrite Hname; exact Hs0);
      assert (Hp : pending w0 = None) by (unfold pending; cbn; rewrite Hf; reflexivity);
      exists w0
  end.
  eexists _, _. split; [reflexivity |].
  split; [exact Hs0 |].
  split; [apply (refresh_state_found _ _ _ Hp Hs) |].
  cbn [rebuilt Chroma.stored_metadata default from_option]. unfold id, stamp.
  rewrite lookup_insert_eq.
  rewrite config_id_ok in Hfp. injection Hfp as Hfp. rewrite Hfp.
  split; [split; [reflexivity | split; [reflexivity |]] |].
  - cbn [RagService._embedding_drift_detected RagService.assign].
    rewrite eq_str_refl. reflexivity.
  - unfold RagService.is_ready.
    cbn [RagService._embedding_drift_detected RagService._chroma_connected
         RagService.assign].
    rewrite eq_str_refl. reflexivity.
Qed.

Lemma rebuild_collection_failed_add_leaves_stamp_witness :
  exists w' self' w'',
    Ingest.rebuild_collection (py "utkrusht_docs") Embedding.DefaultEmbeddingFunction
      sample_fingerprint (py "default") sample_docs 32
      {| Chroma.collections := ∅; Chroma.faults := [None; None; Some (StoreError 500)];
         Chroma.search := no_hits; Chroma.log := [] |}
    = (Raise (StoreError 500), w')
    /\ RagService.refresh_state (RagService.init default_settings) w' = (Ok tt, self', w'')
    /\ RagService.is_ready self' = true.
Proof.
  destruct (rebuild_collection_failed_add_leaves_stamp (py "utkrusht_docs")
              Embedding.DefaultEmbeddingFunction sample_fingerprint (py "default")
              {| Ingest.id := py "a.md"; Ingest.content := py "alpha";
                 Ingest.metadata := ∅ |}
              [{| Ingest.id := py "b.txt"; Ingest.content := py "beta";
                  Ingest.metadata := ∅ |}] 32
              {| Chroma.collections := ∅;
                 Chroma.faults := [None; None; Some (StoreError 500)];
                 Chroma.search := no_hits; Chroma.log := [] |}
              (StoreError 500) (RagService.init default_settings))
    as (w' & self' & w'' & Hr & _ & Hrf & _ & Hready).
  - vm_compute. reflexivity.
  - reflexivity.
  - reflexivity.
  - reflexivity.
  - exact config_id_default_v1.
  - exists w', self', w''. repeat split; assumption.
Defined.

(** ** More on refresh and query *)

Lemma get_collection_store name ef w r w' :
  Chroma.get_collection name ef w = (r, w') ->
  w' = after (Chroma.CGetCollection name) w.
Proof.
  unfold Chroma.get_collection. intros H.
  apply bind_inv in H as [([] & w1 & Hreq & H) | (e & Hreq & _)].
  - apply request_store in Hreq as ->.
    destruct (_ !! _); injection H as _ <-; reflexivity.
  - apply request_store in Hreq. exact Hreq.
Qed.

Lemma refresh_state_store self w r self' w' :
  RagService.refresh_state self w = (r, self', w') ->
  w' = after (Chroma.CGetCollection
                (Config.chroma_collection (RagService._settings self))) w.
Proof.
  unfold RagService.refresh_state, RagService.disconnected.
  destruct (Chroma.get_collection _ _ w) as [[c | e] w1] eqn:Hg;
    apply get_collection_store in Hg as ->; intros H.
  - destruct (_ !! _); [destruct (Embedding.config_id _) |];
      injection H as _ _ <-; reflexivity.
  - destruct e; injection H as _ _ <-; reflexivity.
Qed.

(** X8. [refresh_state] only reads: whatever the outcome, it makes exactly
    one call to the store, the fetch of the configured collection, and the
    collections of the store are unchanged.  It also overwrites all four
    mutable attributes, so its outcome does not depend on the flags the
    service held before. *)
Theorem refresh_state_reads_only
    (self : RagService.RAGService) (w : Chroma.Store)
    (r : result unit) (self' : RagService.RAGService) (w' : Chroma.Store) :
  RagService.refresh_state self w = (r, self', w') ->
  Chroma.collections w' = Chroma.collections w
  /\ calls_between w w'
       [Chroma.CGetCollection (Config.chroma_collection (RagService._settings self))]
  /\ (forall collection stored drift connected,
        RagService.refresh_state
          (RagService.assign self collection stored drift connected) w
        = (r, self', w')).
Proof.
  intros H. pose proof (refresh_state_store _ _ _ _ _ H) as ->.
  split; [reflexivity | split; [reflexivity |]].
  intros collection stored drift connected. rewrite <- H. reflexivity.
Qed.

Lemma refresh_state_reads_only_witness :
  Chroma.collections
    (snd (RagService.refresh_state sample_ready_service (failing_store (StoreError 503))))
  = Chroma.collections (failing_store (StoreError 503)).
Proof.
  destruct (RagService.refresh_state sample_ready_service
              (failing_store (StoreError 503))) as [[r self'] w'] eqn:H.
  apply (refresh_state_reads_only _ _ _ _ _ H).
Defined.

Lemma refresh_state_raise_inv
    (self : RagService.RAGService) (w : Chroma.Store)
    (e : exn) (self' : RagService.RAGService) (w' : Chroma.Store) :
  RagService.refresh_state self w = (Raise e, self', w') ->
  exists cause,
    e = ChromaConnectionError cause
    /\ pending w = Some cause
    /\ cause <> NotFoundError.
Proof.
  intros H. unfold RagService.refresh_state in H.
  destruct (pending w) as [cause |] eqn:Hp.
  - rewrite (get_collection_fault _ _ _ _ Hp) in H.
    exists cause. destruct cause; try discriminate;
      injection H as <- _ _; repeat split; discriminate.
  - destruct (Chroma.collections w
                !! Config.chroma_collection (RagService._settings self)) as [s |] eqn:Hs.
    + rewrite (get_collection_found _ _ _ _ Hp Hs) in H.
      cbn [Chroma.handle Chroma.metadata fst snd] in H.
      destruct (_ !! _); [rewrite config_id_ok in H |]; discriminate.
    + rewrite (get_collection_missing _ _ _ Hp Hs) in H. discriminate.
Qed.

(** X9. [refresh_state] raises nothing but [ChromaConnectionError]: if it
    raises, the call to the store raised an exception other than
    [NotFoundError], and that exception is the cause carried. *)
Theorem refresh_state_raises_only_connection_error
    (self : RagService.RAGService) (w : Chroma.Store)
    (e : exn) (self' : RagService.RAGService) (w' : Chroma.Store) :
  RagService.refresh_state self w = (Raise e, self', w') ->
  exists cause,
    e = ChromaConnectionError cause
    /\ pending w = Some cause
    /\ cause <> NotFoundError.
Proof. exact (refresh_state_raise_inv self w e self' w'). Qed.

Lemma refresh_state_raises_only_connection_error_witness :
  exists cause,
    ChromaConnectionError (StoreError 503) = ChromaConnectionError cause
    /\ pending (failing_store (StoreError 503)) = Some cause
    /\ cause <> NotFoundError.
Proof.
  apply (refresh_state_raises_only_connection_error sample_ready_service
           (failing_store (StoreError 503)) _
           (RagService.assign sample_ready_service None None false false)
           (after (Chroma.CGetCollection (py "utkrusht_docs"))
              (failing_store (StoreError 503)))).
  reflexivity.
Defined.

Lemma refresh_state_served
    (self : RagService.RAGService) (w : Chroma.Store) :
  pending w = None ->
  exists self' w',
    RagService.refresh_state self w = (Ok tt, self', w')
    /\ (RagService.is_ready self' = true
        <-> match Chroma.collections w
                  !! Config.chroma_collection (RagService._settings self) with
            | None => True
            | Some s => carries (fingerprint (RagService._embedding_config self)) s
            end)
    /\ (is_Some (RagService._collection self')
        <-> is_Some (Chroma.collections w
                       !! Config.chroma_collection (RagService._settings self))).
Proof.
  intros Hp.
  destruct (Chroma.collections w
              !! Config.chroma_collection (RagService._settings self)) as [s |] eqn:Hs.
  - eexists _, _. split; [apply (refresh_state_found _ _ _ Hp Hs) |].
    unfold carries.
    destruct (default ∅ (Chroma.stored_metadata s) !! embedding_config_id_key) as [v |].
    + split.
      * unfold RagService.is_ready.
        cbn [RagService._embedding_drift_detected RagService._chroma_connected
             RagService.assign].
        rewrite negb_involutive. cbn [andb]. split.
        -- intros H. exists v. split; [reflexivity | exact H].
        -- intros (v' & Hv & H). injection Hv as <-. exact H.
      * split; intros _; eexists; reflexivity.
    + split.
      * split; [discriminate |]. intros (v & Hv & _). discriminate.
      * split; intros _; eexists; reflexivity.
  - exists (RagService.assign self None None false true),
      (after (Chroma.CGetCollection
                (Config.chroma_collection (RagService._settings self))) w).
    split.
    + unfold RagService.refresh_state.
      rewrite (get_collection_missing _ _ _ Hp Hs). reflexivity.
    + split; [split; reflexivity |].
      split; intros [x Hx]; discriminate.
Qed.

(** X10. After a refresh that was served, the service is ready exactly when
    the configured collection does not exist or carries, under
    [embedding_config_id], a value equal to the current fingerprint; a
    collection is attached exactly when it exists. *)
Theorem refresh_state_ready_iff
    (self : RagService.RAGService) (w : Chroma.Store) :
  pending w = None ->
  exists self' w',
    RagService.refresh_state self w = (Ok tt, self', w')
    /\ (RagService.is_ready self' = true
        <-> match Chroma.collections w
                  !! Config.chroma_collection (RagService._settings self) with
            | None => True
            | Some s => carries (fingerprint (RagService._embedding_config self)) s
            end)
    /\ (is_Some (RagService._collection self')
        <-> is_Some (Chroma.collections w
                       !! Config.chroma_collection (RagService._settings self))).
Proof. exact (refresh_state_served self w). Qed.

Lemma refresh_state_ready_iff_witness :
  exists self' w',
    RagService.refresh_state (RagService.init default_settings) (store_of ∅)
    = (Ok tt, self', w')
    /\ RagService.is_ready self' = true.
Proof.
  destruct (refresh_state_ready_iff (RagService.init default_settings) (store_of ∅)
              eq_refl) as (self' & w' & Hr & Hready & _).
  exists self', w'. split; [exact Hr |]. apply Hready.
  change (Chroma.collections (store_of ∅)
          !! Config.chroma_collection
               (RagService._settings (RagService.init default_settings)))
    with ((∅ : gmap str Chroma.Stored) !! py "utkrusht_docs").
  rewrite lookup_empty. exact I.
Defined.

Lemma unpack_error question results e :
  RagService.unpack question results = Raise e -> e = IndexError.
Proof.
  unfold RagService.unpack, RagService.first_row.
  destruct results as [[[| ? ?] |] [[| ? ?] |] [[| ? ?] |] [[| ? ?] |]]; cbn;
    intros H; try discriminate; injection H as <-; reflexivity.
Qed.

(** X11. The failures of [query].  If [query] raises, then either the
    service was not ready, the exception is [EmbeddingConfigMismatchError]
    and the store was not called; or the service was ready with a collection
    attached and the exception is the one the store call raised, or
    [NotFoundError] because the collection is no longer in the store, or
    [IndexError] from a result whose outer list is empty.  In particular
    [query] itself never raises [ChromaConnectionError]. *)
Theorem query_failures
    (self : RagService.RAGService) (question : str) (k : Z) (w : Chroma.Store)
    (e : exn) (self' : RagService.RAGService) (w' : Chroma.Store) :
  RagService.query self question k w = (Raise e, self', w') ->
  (RagService.is_ready self = false /\ e = EmbeddingConfigMismatchError /\ w' = w)
  \/ (RagService.is_ready self = true
      /\ exists collection,
           RagService._collection self = Some collection
           /\ (pending w = Some e
               \/ (pending w = None
                   /\ Chroma.collections w !! Chroma.name collection = None
                   /\ e = NotFoundError)
               \/ (pending w = None /\ e = IndexError))).
Proof.
  unfold RagService.query. destruct (RagService.is_ready self) eqn:Hr; cbn [negb].
  - intros H. right. split; [reflexivity |].
    destruct (RagService._collection self) as [collection |]; [| discriminate].
    exists collection. split; [reflexivity |].
    unfold Chroma.query, Chroma.bind in H.
    destruct (pending w) as [e0 |] eqn:Hp.
    + rewrite (request_fault _ _ _ Hp) in H. injection H as <- _ _. left. reflexivity.
    + rewrite (request_served _ _ Hp) in H. cbn [after Chroma.collections] in H.
      destruct (Chroma.collections w !! Chroma.name collection) as [s |] eqn:Hs.
      * right. right. split; [reflexivity |].
        injection H as H _ _. eapply unpack_error. exact H.
      * right. left. injection H as <- _ _. repeat split.
  - intros H. injection H as <- _ <-. left. repeat split.
Qed.

Lemma query_failures_witness :
  (RagService.is_ready (RagService.init default_settings) = false
   /\ EmbeddingConfigMismatchError = EmbeddingConfigMismatchError
   /\ sample_store = sample_store)
  \/ (RagService.is_ready (RagService.init default_settings) = true
      /\ exists collection,
           RagService._collection (RagService.init default_settings) = Some collection
           /\ (pending sample_store = Some EmbeddingConfigMismatchError
               \/ (pending sample_store = None
                   /\ Chroma.collections sample_store !! Chroma.name collection = None
                   /\ EmbeddingConfigMismatchError = NotFoundError)
               \/ (pending sample_store = None
                   /\ EmbeddingConfigMismatchError = IndexError))).
Proof.
  apply (query_failures (RagService.init default_settings) (py "test") 1 sample_store
           EmbeddingConfigMismatchError (RagService.init default_settings) sample_store).
  reflexivity.
Defined.

(** ** The health and start-up endpoints *)

Lemma refresh_state_outcome self w :
  exists r self' w',
    RagService.refresh_state self w = (r, self', w')
    /\ (r = Ok tt \/ exists cause, r = Raise (ChromaConnectionError cause)
                                   /\ RagService._chroma_connected self' = false
                                   /\ RagService._embedding_drift_detected self' = false).
Proof.
  destruct (RagService.refresh_state self w) as [[[[] | e] self'] w'] eqn:H.
  - eexists _, _, _. split; [reflexivity | left; reflexivity].
  - pose proof H as H'.
    apply refresh_state_raise_inv in H' as (cause & -> & Hp & Hne).
    eexists _, _, _. split; [reflexivity | right]. exists cause.
    unfold RagService.refresh_state in H. rewrite (get_collection_fault _ _ _ _ Hp) in H.
    destruct cause; try congruence; injection H as <- _; repeat split.
Qed.

Lemma refresh_state_fault self w e :
  pending w = Some e -> e <> NotFoundError ->
  exists self' w',
    RagService.refresh_state self w = (Raise (ChromaConnectionError e), self', w')
    /\ RagService._chroma_connected self' = false
    /\ RagService._embedding_drift_detected self' = false.
Proof.
  intros Hp Hne.
  exists (RagService.assign self None None false false),
    (after (Chroma.CGetCollection
              (Config.chroma_collection (RagService._settings self))) w).
  split; [| split; reflexivity].
  unfold RagService.refresh_state. rewrite (get_collection_fault _ _ _ _ Hp).
  destruct e; try reflexivity. congruence.
Qed.

Lemma get_embedding_status_ok rag :
  exists details, RagService.get_embedding_status rag = (Ok details, rag).
Proof.
  unfold RagService.get_embedding_status. rewrite config_id_ok. eauto.
Qed.

(** X12. The health endpoint always answers: it never raises, whatever the
    store does, and it changes no collection.  The status is ["ok"] exactly
    when the response reports the store connected and no drift, and
    ["degraded"] otherwise. *)
Theorem health_always_answers (rag : RagService.RAGService) (w : Chroma.Store) :
  exists h rag' w',
    Endpoints.health rag w = (Ok h, rag', w')
    /\ Chroma.collections w' = Chroma.collections w
    /\ (Endpoints.chroma_connected h = true
        /\ Endpoints.embedding_drift_detected h = false
        -> Endpoints.status h = py "ok")
    /\ (Endpoints.chroma_connected h = false
        \/ Endpoints.embedding_drift_detected h = true
        -> Endpoints.status h = py "degraded").
Proof.
  destruct (refresh_state_outcome rag w) as (r & rag1 & w1 & Hr & Hcase).
  pose proof (refresh_state_store _ _ _ _ _ Hr) as ->.
  unfold Endpoints.health. rewrite Hr.
  destruct Hcase as [-> | (cause & -> & _)].
  all: destruct (RagService.chroma_connected rag1) eqn:Hc.
  all: unfold RagService.check_chroma_health, Chroma.heartbeat.
  all: try (destruct (Chroma.request Chroma.CHeartbeat _) as [[[] | e'] w2] eqn:Hh;
            apply request_store in Hh as ->).
  all: destruct (get_embedding_status_ok rag1) as [details ->].
  all: eexists _, _, _; (split; [reflexivity |]); (split; [reflexivity |]).
  all: cbn [Endpoints.status Endpoints.chroma_connected
            Endpoints.embedding_drift_detected].
  all: split; [intros [H1 H2]; try discriminate; rewrite H2; reflexivity |].
  all: intros [H | H]; try discriminate; try reflexivity; rewrite H; reflexivity.
Qed.

Lemma health_always_answers_witness :
  exists h rag' w',
    Endpoints.health (RagService.init default_settings) (failing_store (StoreError 503))
    = (Ok h, rag', w')
    /\ Endpoints.status h = py "degraded".
Proof.
  destruct (health_always_answers (RagService.init default_settings)
              (failing_store (StoreError 503)))
    as (h & rag' & w' & Hh & _ & _ & Hdeg).
  exists h, rag', w'. split; [exact Hh |]. apply Hdeg.
  vm_compute in Hh. injection Hh as <- _ _. left. reflexivity.
Defined.

(** X13. When the fetch of the collection fails, the health endpoint reports
    ["degraded"] with the store not connected and no drift, and it makes no
    liveness call: the fetch is the only call.  When the fetch is served but
    the liveness call fails, the store is reported not connected as well,
    although the service itself holds the connected flag. *)
Theorem health_when_store_fails
    (rag : RagService.RAGService) (w : Chroma.Store) (e : exn) :
  let name := Config.chroma_collection (RagService._settings rag) in
  (pending w = Some e -> e <> NotFoundError ->
   exists h rag' w',
     Endpoints.health rag w = (Ok h, rag', w')
     /\ Endpoints.status h = py "degraded"
     /\ Endpoints.chroma_connected h = false
     /\ Endpoints.embedding_drift_detected h = false
     /\ calls_between w w' [Chroma.CGetCollection name])
  /\ (pending w = None -> pending (after (Chroma.CGetCollection name) w) = Some e ->
      exists h rag' w',
        Endpoints.health rag w = (Ok h, rag', w')
        /\ Endpoints.status h = py "degraded"
        /\ Endpoints.chroma_connected h = false
        /\ RagService.chroma_connected rag' = true
        /\ calls_between w w' [Chroma.CGetCollection name; Chroma.CHeartbeat]).
Proof.
  intros name. split.
  - intros Hp Hne.
    destruct (refresh_state_fault rag w e Hp Hne)
      as (rag1 & w1 & Hr & Hc & Hd).
    pose proof (refresh_state_store _ _ _ _ _ Hr) as ->.
    unfold Endpoints.health. rewrite Hr.
    unfold RagService.chroma_connected. rewrite Hc.
    destruct (get_embedding_status_ok rag1) as [details ->].
    eexists _, _, _. split; [reflexivity |].
    cbn [Endpoints.status Endpoints.chroma_connected
         Endpoints.embedding_drift_detected andb].
    unfold RagService.embedding_drift_detected. rewrite Hd. repeat split.
  - intros Hp Hp1.
    destruct (refresh_state_served rag w Hp) as (rag1 & w1 & Hr & _ & _).
    pose proof (refresh_state_store _ _ _ _ _ Hr) as ->.
    assert (Hc : RagService._chroma_connected rag1 = true).
    { unfold RagService.refresh_state in Hr.
      destruct (Chroma.collections w !! name) as [s |] eqn:Hs.
      - rewrite (get_collection_found _ _ _ _ Hp Hs) in Hr.
        cbn [Chroma.handle Chroma.metadata fst snd] in Hr.
        destruct (_ !! _); [rewrite config_id_ok in Hr |];
          injection Hr as <-; reflexivity.
      - rewrite (get_collection_missing _ _ _ Hp Hs) in Hr.
        injection Hr as <-. reflexivity. }
    unfold Endpoints.health. rewrite Hr.
    unfold RagService.chroma_connected. rewrite Hc.
    unfold RagService.check_chroma_health, Chroma.heartbeat.
    rewrite (request_fault _ _ _ Hp1).
    destruct (get_embedding_status_ok rag1) as [details ->].
    eexists _, _, _. split; [reflexivity |].
    cbn [Endpoints.status Endpoints.chroma_connected andb].
    repeat split; try exact Hc.
    unfold calls_between. cbn. rewrite <- app_assoc. reflexivity.
Qed.

Lemma health_when_store_fails_witness :
  exists h rag' w',
    Endpoints.health sample_ready_service (failing_store (StoreError 503))
    = (Ok h, rag', w')
    /\ Endpoints.status h = py "degraded"
    /\ Endpoints.chroma_connected h = false
    /\ Endpoints.embedding_drift_detected h = false
    /\ calls_between (failing_store (StoreError 503)) w'
         [Chroma.CGetCollection (py "utkrusht_docs")].
Proof.
  apply (proj1 (health_when_store_fails sample_ready_service
                  (failing_store (StoreError 503)) (StoreError 503))).
  - reflexivity.
  - discriminate.
Defined.

(** X14. When both calls are served and the collection is missing or carries
    the current fingerprint, the health endpoint reports ["ok"], connected,
    no drift. *)
Theorem health_ok (rag : RagService.RAGService) (w : Chroma.Store) :
  let name := Config.chroma_collection (RagService._settings rag) in
  pending w = None ->
  pending (after (Chroma.CGetCollection name) w) = None ->
  match Chroma.collections w !! name with
  | None => True
  | Some s => carries (fingerprint (RagService._embedding_config rag)) s
  end ->
  exists h rag' w',
    Endpoints.health rag w = (Ok h, rag', w')
    /\ Endpoints.status h = py "ok"
    /\ Endpoints.chroma_connected h = true
    /\ Endpoints.embedding_drift_detected h = false.
Proof.
  intros name Hp Hp1 Hcar.
  destruct (refresh_state_served rag w Hp) as (rag1 & w1 & Hr & Hready & _).
  pose proof (refresh_state_store _ _ _ _ _ Hr) as ->.
  apply Hready in Hcar. unfold RagService.is_ready in Hcar.
  apply andb_true_iff in Hcar as [Hc Hd]. apply negb_true_iff in Hd.
  unfold Endpoints.health. rewrite Hr.
  unfold RagService.chroma_connected. rewrite Hc.
  unfold RagService.check_chroma_health, Chroma.heartbeat.
  rewrite (request_served _ _ Hp1).
  destruct (get_embedding_status_ok rag1) as [details ->].
  eexists _, _, _. split; [reflexivity |].
  cbn [Endpoints.status Endpoints.chroma_connected
       Endpoints.embedding_drift_detected andb].
  unfold RagService.embedding_drift_detected. rewrite Hd. repeat split.
Qed.

Lemma health_ok_witness :
  exists h rag' w',
    Endpoints.health (RagService.init default_settings) (store_of ∅) = (Ok h, rag', w')
    /\ Endpoints.status h = py "ok"
    /\ Endpoints.chroma_connected h = true
    /\ Endpoints.embedding_drift_detected h = false.
Proof.
  apply (health_ok (RagService.init default_settings) (store_of ∅)).
  - reflexivity.
  - reflexivity.
  - change (Chroma.collections (store_of ∅)
            !! Config.chroma_collection
                 (RagService._settings (RagService.init default_settings)))
      with ((∅ : gmap str Chroma.Stored) !! py "utkrusht_docs").
    rewrite lookup_empty. exact I.
Defined.


(** ** More on the initialisation *)











(** X19. [_bool_env]: an unset variable gives the default; for a set
    variable the default plays no part and white space around the value is
    ignored. *)
Theorem _bool_env_reads_trimmed_value
    (lower : str -> str) (environ : gmap str str) (name : str)
    (l v r : str) (d d' : bool) :
  blank l -> blank r ->
  InitEmbeddings._bool_env lower (<[name := l ++ v ++ r]> environ) name d
  = InitEmbeddings._bool_env lower (<[name := v]> environ) name d'
  /\ InitEmbeddings._bool_env lower (delete name environ) name d = d.
Proof.
  intros Hl Hr. unfold InitEmbeddings._bool_env.
  rewrite !lookup_insert_eq, lookup_delete_eq.
  rewrite (strip_padding _ _ _ Hl Hr). split; reflexivity.
Qed.

Lemma _bool_env_reads_trimmed_value_witness :
  InitEmbeddings._bool_env (fun s => s) (<[py "FLAG" := py " " ++ py "yes" ++ py " "]> ∅)
    (py "FLAG") false
  = InitEmbeddings._bool_env (fun s => s) (<[py "FLAG" := py "yes"]> ∅) (py "FLAG") true.
Proof.
  apply (_bool_env_reads_trimmed_value (fun s => s) ∅ (py "FLAG")
           (py " ") (py "yes") (py " ") false true);
    repeat constructor.
Defined.

(** ** The loader *)

Lemma scan_kept lower entries : forall acc,
  (forall e, In e entries -> ~ Loader.read_fails lower e) ->
  Loader.scan lower entries acc = Ok (acc ++ omap (Loader.kept lower) entries).
Proof.
  induction entries as [| e entries IH]; intros acc Hno.
  - cbn. rewrite app_nil_r. reflexivity.
  - assert (Hrest : forall e', In e' entries -> ~ Loader.read_fails lower e')
      by (intros e' He'; apply Hno; right; exact He').
    pose proof (Hno e (or_introl eq_refl)) as He.
    cbn [Loader.scan omap list_omap]. unfold Loader.kept at 1.
    destruct (Loader.is_file e) eqn:Hf; cbn [negb andb]; [| apply IH, Hrest].
    destruct (Loader.recognised lower e) eqn:Hrec; cbn [negb]; [| apply IH, Hrest].
    destruct (Loader.read_text e) as [text | | exc] eqn:Hread.
    + destruct (Str.truthy (Some (Str.strip text))); cbn [negb].
      * rewrite (IH _ Hrest), <- app_assoc. reflexivity.
      * apply IH, Hrest.
    + apply IH, Hrest.
    + exfalso. apply He. repeat split; eauto.
Qed.

Lemma omap_length {A B} (f : A -> option B) (l : list A) :
  (length (omap f l) <= length l)%nat.
Proof.
  induction l as [| a l IH]; [reflexivity |].
  cbn. destruct (f a); cbn; lia.
Qed.

Lemma kept_document lower e d :
  Loader.kept lower e = Some d ->
  Loader.is_file e = true /\ Loader.recognised lower e = true
  /\ Loader.read_text e = Loader.Text (Ingest.content d)
  /\ Ingest.id d = Loader.relative e
  /\ ~ blank (Ingest.content d).
Proof.
  unfold Loader.kept.
  destruct (Loader.is_file e); [| discriminate].
  destruct (Loader.recognised lower e); [| discriminate]. cbn [andb].
  destruct (Loader.read_text e) as [text | |]; try discriminate.
  destruct (Str.truthy (Some (Str.strip text))) eqn:Ht; [| discriminate].
  intros H. injection H as <-. repeat split.
  intros Hb. cbn [Ingest.content Loader.document_of] in Hb.
  rewrite (strip_blank _ Hb) in Ht. discriminate.
Qed.

(** X20. When no read fails with anything but a decoding error, the loader
    returns normally.  Its documents are, in the order of the enumeration,
    the entries that are files with the suffix [.md] or [.txt] (compared in
    lower case) whose text decodes and is not all white space; each document
    has the relative path as identifier and the text as content.
    Directories, other suffixes, undecodable files and blank files are
    skipped; a missing root gives no documents. *)
Theorem load_documents_from_path_keeps
    (lower : str -> str) (entries : list Loader.Entry) :
  (forall e, In e entries -> ~ Loader.read_fails lower e) ->
  exists docs,
    Loader.load_documents_from_path lower (Loader.Tree entries) = Ok docs
    /\ docs = omap (Loader.kept lower) entries
    /\ (length docs <= length entries)%nat
    /\ Forall (fun d =>
                 ~ blank (Ingest.content d)
                 /\ exists e, In e entries
                      /\ Loader.is_file e = true
                      /\ Loader.recognised lower e = true
                      /\ Loader.read_text e = Loader.Text (Ingest.content d)
                      /\ Ingest.id d = Loader.relative e) docs
    /\ Loader.load_documents_from_path lower Loader.Missing = Ok [].
Proof.
  intros Hno. exists (omap (Loader.kept lower) entries).
  split; [apply (scan_kept lower entries [] Hno) |]. split; [reflexivity |].
  split; [apply omap_length |]. split; [| reflexivity].
  apply Forall_forall. intros d Hd.
  apply list_elem_of_omap in Hd as (e & He & Hk).
  apply kept_document in Hk as (Hf & Hrec & Hread & Hid & Hnb).
  split; [exact Hnb |]. exists e. repeat split; try assumption.
  apply list_elem_of_In, He.
Qed.

Lemma load_documents_from_path_keeps_witness :
  exists docs,
    Loader.load_documents_from_path (fun s => s)
      (Loader.Tree
         [ {| Loader.path := py "/app/data/docs/a.md"; Loader.relative := py "a.md";
              Loader.name := py "a.md"; Loader.suffix := py ".md";
              Loader.is_file := true; Loader.read_text := Loader.Text (py "alpha") |};
           {| Loader.path := py "/app/data/docs/b.bin"; Loader.relative := py "b.bin";
              Loader.name := py "b.bin"; Loader.suffix := py ".bin";
              Loader.is_file := true; Loader.read_text := Loader.Failed OSError |};
           {| Loader.path := py "/app/data/docs/c.txt"; Loader.relative := py "c.txt";
              Loader.name := py "c.txt"; Loader.suffix := py ".txt";
              Loader.is_file := true; Loader.read_text := Loader.Undecodable |} ])
    = Ok docs
    /\ List.map Ingest.id docs = [py "a.md"].
Proof.
  match goal with
  | |- exists docs, Loader.load_documents_from_path ?lw (Loader.Tree ?es) = _ /\ _ =>
      destruct (load_documents_from_path_keeps lw es) as (docs & Hl & Hd & _)
  end.
  - intros e [<- | [<- | [<- | []]]] (Hf & Hrec & exc & Hread);
      try discriminate; try (vm_compute in Hrec; discriminate).
  - exists docs. split; [exact Hl |]. rewrite Hd. vm_compute. reflexivity.
Defined.

Lemma scan_fails lower pre : forall acc e post exc,
  (forall e', In e' pre -> ~ Loader.read_fails lower e') ->
  Loader.is_file e = true -> Loader.recognised lower e = true ->
  Loader.read_text e = Loader.Failed exc ->
  Loader.scan lower (pre ++ e :: post) acc = Raise exc.
Proof.
  induction pre as [| p pre IH]; intros acc e post exc Hno Hf Hrec Hread.
  - cbn. rewrite Hf, Hrec, Hread. reflexivity.
  - assert (Hrest : forall e', In e' pre -> ~ Loader.read_fails lower e')
      by (intros e' He'; apply Hno; right; exact He').
    pose proof (Hno p (or_introl eq_refl)) as Hp.
    cbn [app Loader.scan].
    destruct (Loader.is_file p) eqn:Hfp; cbn [negb]; [| eapply IH; eassumption].
    destruct (Loader.recognised lower p) eqn:Hrp; cbn [negb]; [| eapply IH; eassumption].
    destruct (Loader.read_text p) as [text | | exc'] eqn:Hreadp.
    + destruct (Str.truthy (Some (Str.strip text))); cbn [negb];
        eapply IH; eassumption.
    + eapply IH; eassumption.
    + exfalso. apply Hp. repeat split; eauto.
Qed.

(** X21. A read of a recognised file that fails with something else than a
    decoding error aborts the load: the loader raises that exception, and
    the documents read before it are not returned. *)
Theorem load_documents_from_path_aborts
    (lower : str -> str) (pre post : list Loader.Entry) (e : Loader.Entry) (exc : exn) :
  (forall e', In e' pre -> ~ Loader.read_fails lower e') ->
  Loader.is_file e = true -> Loader.recognised lower e = true ->
  Loader.read_text e = Loader.Failed exc ->
  Loader.load_documents_from_path lower (Loader.Tree (pre ++ e :: post)) = Raise exc.
Proof. intros Hno Hf Hrec Hread. apply scan_fails; assumption. Qed.

Lemma load_documents_from_path_aborts_witness :
  Loader.load_documents_from_path (fun s => s)
    (Loader.Tree
       ([ {| Loader.path := py "/app/data/docs/a.md"; Loader.relative := py "a.md";
             Loader.name := py "a.md"; Loader.suffix := py ".md";
             Loader.is_file := true; Loader.read_text := Loader.Text (py "alpha") |} ]
        ++ {| Loader.path := py "/app/data/docs/b.md"; Loader.relative := py "b.md";
              Loader.name := py "b.md"; Loader.suffix := py ".md";
              Loader.is_file := true; Loader.read_text := Loader.Failed OSError |}
           :: []))
  = Raise OSError.
Proof.
  apply load_documents_from_path_aborts.
  - intros e' [<- | []] (_ & _ & exc & Hread). discriminate.
  - reflexivity.
  - vm_compute. reflexivity.
  - reflexivity.
Defined.

(** ** The serialisation loses nothing *)

Lemma unhexdigit_hexdigit n : n < 16 -> unhexdigit (Str.hexdigit n) = n.
Proof.
  intros Hn. unfold unhexdigit, Str.hexdigit.
  destruct (N.ltb_spec n 10).
  - replace ((0x30 <=? 0x30 + n) && (0x30 + n <=? 0x39)) with true; [lia |].
    symmetry. apply andb_true_iff. split; apply N.leb_le; lia.
  - replace ((0x30 <=? 0x61 + (n - 10)) && (0x61 + (n - 10) <=? 0x39)) with false; [lia |].
    symmetry. apply andb_false_iff. right. apply N.leb_gt. lia.
Qed.

Lemma hex4_digits n :
  n < 0x10000 ->
  4096 * ((n / 4096) mod 16) + 256 * ((n / 256) mod 16)
  + 16 * ((n / 16) mod 16) + n mod 16 = n.
Proof.
  intros Hn.
  pose proof (N.Div0.div_mod n 16) as H1.
  pose proof (N.Div0.div_mod (n / 16) 16) as H2.
  pose proof (N.Div0.div_mod (n / 16 / 16) 16) as H3.
  rewrite !N.Div0.div_div in H2, H3. change (16 * 16) with 256 in *.
  rewrite ?N.Div0.div_div in H3. change (256 * 16) with 4096 in *.
  assert (H4 : n / 4096 < 16) by (apply N.Div0.div_lt_upper_bound; exact Hn).
  rewrite (N.mod_small _ _ H4). lia.
Qed.

Lemma unhex4_hex4 n x :
  n < 0x10000 ->
  exists a b c d,
    Json.hex4 n ++ x = a :: b :: c :: d :: x /\ unhex4 a b c d = n.
Proof.
  intros Hn. unfold Json.hex4. eexists _, _, _, _. split; [reflexivity |].
  unfold unhex4.
  rewrite !unhexdigit_hexdigit by (apply N.mod_upper_bound; discriminate).
  apply hex4_digits, Hn.
Qed.

Lemma below_1024 a : a < 1024 -> In a (List.map N.of_nat (seq 0 1024)).
Proof.
  intros Ha. rewrite <- (N2Nat.id a). apply in_map, in_seq. lia.
Qed.

Lemma lor_high a :
  a < 1024 -> N.lor 0xD800 a = 0xD800 + a /\ N.lor 0xDC00 a = 0xDC00 + a.
Proof.
  intros Ha.
  assert (H : forallb (fun a => (N.lor 0xD800 a =? 0xD800 + a)
                                && (N.lor 0xDC00 a =? 0xDC00 + a))
                (List.map N.of_nat (seq 0 1024)) = true) by (vm_compute; reflexivity).
  rewrite forallb_forall in H. specialize (H a (below_1024 a Ha)).
  apply andb_true_iff in H as [H1 H2]. split; apply N.eqb_eq; assumption.
Qed.

Lemma surrogate_pair n :
  n < 0x100000 ->
  N.lor 0xD800 (N.land (N.shiftr n 10) 0x3FF) = 0xD800 + n / 1024
  /\ N.lor 0xDC00 (N.land n 0x3FF) = 0xDC00 + n mod 1024.
Proof.
  intros Hn. change 0x3FF with (N.ones 10).
  rewrite !N.land_ones, N.shiftr_div_pow2. change (2 ^ 10) with 1024.
  assert (H1 : n / 1024 < 1024) by (apply N.Div0.div_lt_upper_bound; exact Hn).
  assert (H2 : n mod 1024 < 1024) by (apply N.mod_upper_bound; discriminate).
  rewrite (N.mod_small _ _ H1).
  split; [apply (lor_high _ H1) | apply (lor_high _ H2)].
Qed.

(** An escaped character is read back, whatever follows it. *)
Lemma unescape_one_escape_char c x :
  scalar c -> unescape_one (Json.escape_char c ++ x) = Some (c, x).
Proof.
  intros Hc. unfold Json.escape_char.
  destruct (N.eqb_spec c 0x22) as [-> | H1]; [reflexivity |].
  destruct (N.eqb_spec c 0x5C) as [-> | H2]; [reflexivity |].
  destruct (N.eqb_spec c 0x0A) as [-> | H3]; [reflexivity |].
  destruct (N.eqb_spec c 0x0D) as [-> | H4]; [reflexivity |].
  destruct (N.eqb_spec c 0x09) as [-> | H5]; [reflexivity |].
  destruct (N.eqb_spec c 0x08) as [-> | H6]; [reflexivity |].
  destruct (N.eqb_spec c 0x0C) as [-> | H7]; [reflexivity |].
  destruct ((0x20 <=? c) && (c <=? 0x7E)) eqn:Hp.
  - cbn [app unescape_one]. rewrite (proj2 (N.eqb_neq _ _) H2). reflexivity.
  - destruct (N.ltb_spec c 0x10000) as [Hlt | Hge].
    + unfold Json.uescape. rewrite <- app_assoc.
      destruct (unhex4_hex4 c x Hlt) as (a & b & c1 & d & -> & Hu).
      cbn [app unescape_one N.eqb Pos.eqb negb]. rewrite Hu.
      replace ((0xD800 <=? c) && (c <=? 0xDBFF)) with false; [reflexivity |].
      symmetry. apply andb_false_iff.
      destruct Hc as [Hc | [Hc _]]; [left | right]; apply N.leb_gt; lia.
    + assert (Hn : c - 0x10000 < 0x100000) by (destruct Hc as [Hc | [_ Hc]]; lia).
      destruct (surrogate_pair _ Hn) as [-> ->].
      assert (Hhi : 0xD800 + (c - 0x10000) / 1024 < 0x10000).
      { assert ((c - 0x10000) / 1024 < 1024)
          by (apply N.Div0.div_lt_upper_bound; exact Hn). lia. }
      assert (Hlo : 0xDC00 + (c - 0x10000) mod 1024 < 0x10000).
      { assert ((c - 0x10000) mod 1024 < 1024)
          by (apply N.mod_upper_bound; discriminate). lia. }
      unfold Json.uescape. rewrite <- !app_assoc.
      cbn [app].
      destruct (unhex4_hex4 _ (0x5C :: 0x75 :: Json.hex4 (0xDC00 + (c - 0x10000) mod 1024) ++ x) Hhi)
        as (a & b & c1 & d & -> & Hu).
      destruct (unhex4_hex4 _ x Hlo) as (a' & b' & c' & d' & -> & Hu').
      cbn [unescape_one N.eqb Pos.eqb negb andb]. rewrite Hu, Hu'.
      replace ((0xD800 <=? 0xD800 + (c - 0x10000) / 1024)
               && (0xD800 + (c - 0x10000) / 1024 <=? 0xDBFF)) with true.
      * f_equal. f_equal.
        pose proof (N.Div0.div_mod (c - 0x10000) 1024) as Hdm. clear - Hdm Hge.
        generalize dependent ((c - 0x10000) / 1024).
        generalize dependent ((c - 0x10000) mod 1024). intros m q Hdm. lia.
      * symmetry. apply andb_true_iff.
        assert (Hq : (c - 0x10000) / 1024 < 1024)
          by (apply N.Div0.div_lt_upper_bound; exact Hn).
        revert Hq. generalize ((c - 0x10000) / 1024). intros q Hq.
        split; apply N.leb_le; lia.
Qed.

Lemma escape_char_head c :
  exists h t, Json.escape_char c = h :: t /\ h <> 0x22.
Proof.
  unfold Json.escape_char.
  destruct (N.eqb_spec c 0x22) as [-> | H1];
    [eexists _, _; split; [reflexivity | discriminate] |].
  repeat match goal with
         | |- exists h t, (if ?b then _ else _) = _ /\ _ => destruct b
         end;
    try (eexists _, _; split; [reflexivity | discriminate]).
  eexists _, _. split; [reflexivity | exact H1].
Qed.

Lemma escaped_body_inj s1 : forall s2 r1 r2,
  scalars s1 -> scalars s2 ->
  flat_map Json.escape_char s1 ++ 0x22 :: r1
  = flat_map Json.escape_char s2 ++ 0x22 :: r2 ->
  s1 = s2 /\ r1 = r2.
Proof.
  induction s1 as [| c1 s1 IH]; intros [| c2 s2] r1 r2 H1 H2 H.
  - injection H as ->. split; reflexivity.
  - exfalso. cbn [flat_map app] in H.
    destruct (escape_char_head c2) as (h & t & Hc & Hh). rewrite Hc in H.
    injection H as H _. congruence.
  - exfalso. cbn [flat_map app] in H.
    destruct (escape_char_head c1) as (h & t & Hc & Hh). rewrite Hc in H.
    injection H as H _. congruence.
  - cbn [flat_map] in H. rewrite <- !app_assoc in H.
    apply Forall_cons_iff in H1 as [Hc1 H1]. apply Forall_cons_iff in H2 as [Hc2 H2].
    pose proof (f_equal unescape_one H) as Hu.
    rewrite !unescape_one_escape_char in Hu by assumption.
    injection Hu as -> Hrest.
    destruct (IH s2 r1 r2 H1 H2 Hrest) as [-> ->]. split; reflexivity.
Qed.

Lemma encode_basestring_ascii_inj s1 s2 r1 r2 :
  scalars s1 -> scalars s2 ->
  Json.encode_basestring_ascii s1 ++ r1 = Json.encode_basestring_ascii s2 ++ r2 ->
  s1 = s2 /\ r1 = r2.
Proof.
  unfold Json.encode_basestring_ascii. intros H1 H2 H.
  rewrite <- !app_assoc in H. cbn [app] in H. injection H as H.
  eapply escaped_body_inj; eassumption.
Qed.

(** X22. The serialisation that is hashed determines the configuration: two
    configurations whose fields hold Unicode scalar values (no surrogate
    code points) and that differ in any field have different payloads, so
    the fingerprints of different configurations can only coincide through
    a collision of the truncated hash. *)
Theorem payload_injective (c1 c2 : Embedding.EmbeddingConfig) :
  scalar_fields c1 -> scalar_fields c2 ->
  Embedding.payload c1 = Embedding.payload c2 ->
  c1 = c2.
Proof.
  intros (Hm1 & Hi1 & Hv1) (Hm2 & Hi2 & Hv2). rewrite !payload_canonical.
  unfold canonical_json. intros H.
  apply app_inv_head in H. apply app_inv_head in H. apply app_inv_head in H.
  apply encode_basestring_ascii_inj in H as [Hi H]; [| assumption | assumption].
  apply app_inv_head in H. apply app_inv_head in H. apply app_inv_head in H.
  apply encode_basestring_ascii_inj in H as [Hm H]; [| assumption | assumption].
  apply app_inv_head in H. apply app_inv_head in H. apply app_inv_head in H.
  apply encode_basestring_ascii_inj in H as [Hv _]; [| assumption | assumption].
  destruct c1, c2. cbn in *. congruence.
Qed.

Lemma scalars_literal s :
  forallb (fun c => (c <? 0xD800) || ((0xDFFF <? c) && (c <? 0x110000))) s = true ->
  scalars s.
Proof.
  intros H. apply Forall_forall. intros c Hc.
  rewrite forallb_forall in H. specialize (H c (proj1 (list_elem_of_In _ _) Hc)).
  apply orb_true_iff in H as [H | H].
  - left. apply N.ltb_lt, H.
  - right. apply andb_true_iff in H as [H1 H2]. split; apply N.ltb_lt; assumption.
Qed.

Lemma payload_injective_witness :
  Embedding.payload (Embedding.mkEmbeddingConfig (py "default") (py "v1"))
  <> Embedding.payload (Embedding.mkEmbeddingConfig (py "default") (py "v2")).
Proof.
  intros Heq.
  apply (payload_injective _ _) in Heq; [discriminate | |];
    repeat split; apply scalars_literal; reflexivity.
Defined.

(** Without the condition the serialisation is not injective: a character
    outside the basic plane and its two surrogates written as separate code
    points have the same escaped form, hence the same fingerprint. *)
Example payload_surrogates_collide :
  Embedding.payload (Embedding.mkEmbeddingConfig [0x1F600] (py "v1"))
  = Embedding.payload (Embedding.mkEmbeddingConfig [0xD83D; 0xDE00] (py "v1")).
Proof. reflexivity. Qed.

(** ** Composition *)

(** X23. Refreshing twice is the same as refreshing once: when both fetches
    are served (the store being unchanged in between, as refresh itself
    changes nothing), the second refresh returns the same result and leaves
    the service object exactly as the first did. *)
Theorem refresh_state_twice (self : RagService.RAGService) (w : Chroma.Store) :
  let name := Config.chroma_collection (RagService._settings self) in
  pending w = None ->
  pending (after (Chroma.CGetCollection name) w) = None ->
  exists self' w',
    RagService.refresh_state self w = (Ok tt, self', w')
    /\ exists w'', RagService.refresh_state self' w' = (Ok tt, self', w'').
Proof.
  intros name Hp Hp1.
  assert (Hmem : forall collection stored drift connected w0,
            RagService.refresh_state
              (RagService.assign self collection stored drift connected) w0
            = RagService.refresh_state self w0) by reflexivity.
  destruct (Chroma.collections w !! name) as [s |] eqn:Hs.
  - pose proof (refresh_state_found self w s Hp Hs) as H1.
    pose proof (refresh_state_found self _ s Hp1 Hs) as H2.
    cbv zeta in H1, H2. fold name in H1, H2.
    destruct (default ∅ (Chroma.stored_metadata s) !! embedding_config_id_key)
      as [v |] eqn:Hv.
    + eexists _, _. split; [exact H1 |]. eexists. rewrite Hmem. exact H2.
    + eexists _, _. split; [exact H1 |]. eexists. rewrite Hmem. exact H2.
  - exists (RagService.assign self None None false true),
      (after (Chroma.CGetCollection name) w).
    split.
    + unfold RagService.refresh_state. fold name.
      rewrite (get_collection_missing _ _ _ Hp Hs). reflexivity.
    + eexists. rewrite Hmem. unfold RagService.refresh_state. fold name.
      rewrite (get_collection_missing name _ _ Hp1 Hs). reflexivity.
Qed.

Lemma refresh_state_twice_witness :
  exists self' w',
    RagService.refresh_state (RagService.init default_settings) sample_store
    = (Ok tt, self', w')
    /\ exists w'', RagService.refresh_state self' w' = (Ok tt, self', w'').
Proof.
  apply (refresh_state_twice (RagService.init default_settings) sample_store);
    reflexivity.
Defined.




